(** * OverseasAI.list: rule compilation pipeline and domain-liveness monitor

    A shallow embedding of the three scripts of the repository
    ([scripts/sync_rules.py], [scripts/build_clients.py] and
    [scripts/check_domains.py]) together with the properties of the
    specification that were checked against them.

    Python [str] values are modelled as [string] (the UTF-8 bytes of the
    text: byte-wise lexicographic comparison coincides with Python's
    code-point comparison, and splitting on the ASCII comma is the same on
    both views). Python [int] is [Z]. A [dict] is a [gmap], a [set] of
    strings is a [gset string] whose iteration order is left unspecified. *)

From Stdlib Require Import ZArith Ascii String List Permutation Sorted Lia.
From stdpp Require Import base option list strings gmap sorting pretty.

Local Open Scope Z_scope.

(** ** Python builtins used by the scripts *)

Module Py.

(** [s.partition(sep)] for a one-character separator: the text before the
    first separator, the separator itself, and the rest; when the
    separator does not occur the result is [(s, "", "")]. *)
Fixpoint partition (sep : ascii) (s : string) : string * string * string :=
  match s with
  | EmptyString => ("", "", "")
  | String c s' =>
      if Ascii.eqb c sep then ("", String sep "", s')
      else let '(before, found, rest) := partition sep s' in
           (String c before, found, rest)
  end.

(** Prepends a character to the first field of a field list. *)
Definition push_char (c : ascii) (fields : list string) : list string :=
  match fields with
  | [] => [String c ""]
  | f :: fs => String c f :: fs
  end.

(** [s.split(sep)] for a one-character separator. *)
Fixpoint split (sep : ascii) (s : string) : list string :=
  match s with
  | EmptyString => [""]
  | String c s' =>
      if Ascii.eqb c sep then "" :: split sep s'
      else push_char c (split sep s')
  end.

(** [s.split(sep, maxsplit)] for a one-character separator. *)
Fixpoint split_max (sep : ascii) (maxsplit : nat) (s : string) : list string :=
  match s with
  | EmptyString => [""]
  | String c s' =>
      match maxsplit with
      | O => [s]
      | S n =>
          if Ascii.eqb c sep then "" :: split_max sep n s'
          else push_char c (split_max sep maxsplit s')
      end
  end.

(** [sep.join(l)]. *)
Definition join (sep : string) (l : list string) : string :=
  String.concat sep l.

(** [s.startswith(p)]. *)
Definition startswith (s p : string) : bool := String.prefix p s.

(** [s.startswith((p1, ..., pn))]. *)
Definition startswith_any (s : string) (ps : list string) : bool :=
  existsb (startswith s) ps.

(** [s.replace(old, new)] for a non-empty [old]: every non-overlapping
    occurrence of [old], scanning from the left, is replaced. [skip]
    counts the characters of a matched occurrence still to be dropped. *)
Fixpoint replace_go (old new : string) (skip : nat) (s : string) : string :=
  match s with
  | EmptyString => ""
  | String c s' =>
      match skip with
      | S k => replace_go old new k s'
      | O =>
          if String.prefix old s
          then new +:+ replace_go old new (String.length old - 1) s'
          else String c (replace_go old new 0 s')
      end
  end.

Definition replace (old new s : string) : string := replace_go old new 0 s.

(** [sorted(l, key=key)]: Python's sort is stable, and a stable sort has
    exactly one result, the one insertion sort computes: an element goes
    before the first element whose key is not smaller than its own. *)
Section sorted.
Context {A K : Type} (key : A → K) (lt : K → K → bool).

Fixpoint insort (x : A) (l : list A) : list A :=
  match l with
  | [] => [x]
  | y :: l' => if lt (key y) (key x) then y :: insort x l'
               else x :: y :: l'
  end.

Definition sorted (l : list A) : list A := foldr insort [] l.
End sorted.

(** [<] on [str]. *)
Definition str_lt (s1 s2 : string) : bool := String.ltb s1 s2.

(** [<] on tuples [(int, str, str)]: the first differing component
    decides. *)
Definition key_lt (k1 k2 : Z * string * string) : bool :=
  let '(r1, t1, v1) := k1 in
  let '(r2, t2, v2) := k2 in
  if negb (r1 =? r2) then r1 <? r2
  else if negb (String.eqb t1 t2) then str_lt t1 t2
  else str_lt v1 v2.

(** [collections.Counter] over strings. *)
Definition counter_item (c : gmap string Z) (k : string) : Z :=
  default 0 (c !! k).

(** Truth value of [c.get(k)]: [None] and [0] are false. *)
Definition counter_get_truthy (c : gmap string Z) (k : string) : bool :=
  match c !! k with
  | Some n => negb (n =? 0)
  | None => false
  end.

(** [c[k] += 1]. *)
Definition counter_incr (c : gmap string Z) (k : string) : gmap string Z :=
  <[k := counter_item c k + 1]> c.

(** [Counter(iterable)]. *)
Definition counter_of (l : list string) : gmap string Z :=
  fold_left counter_incr l ∅.

(** [sum(c.values())]. *)
Definition counter_sum (c : gmap string Z) : Z :=
  map_fold (λ _ v acc, v + acc) 0 c.

(** What the scripts rely on without fixing it: [str.strip], the line
    boundaries of [str.splitlines], and the order in which a [set] is
    iterated (any enumeration of its elements). *)
Class Runtime := {
  strip : string → string;
  splitlines : string → list string;
  set_iter : gset string → list string;
  set_iter_perm : ∀ s, set_iter s ≡ₚ elements s;
}.

(** An ASCII instance: whitespace is blank, tab, line feed, vertical tab,
    form feed and carriage return; lines end at a line feed; sets are
    iterated in the order of [elements]. *)
Fixpoint lstrip_ascii (s : string) : string :=
  match s with
  | EmptyString => ""
  | String c s' => if Ascii.is_space c then lstrip_ascii s' else s
  end.

Definition strip_ascii (s : string) : string :=
  String.rev (lstrip_ascii (String.rev (lstrip_ascii s))).

Fixpoint lines_go (cur : string) (s : string) : list string :=
  match s with
  | EmptyString => if String.eqb cur "" then [] else [String.rev cur]
  | String c s' =>
      if Ascii.eqb c "010" then String.rev cur :: lines_go "" s'
      else lines_go (String c cur) s'
  end.

Definition splitlines_ascii (s : string) : list string := lines_go "" s.

#[global] Instance ascii_runtime : Runtime := {|
  strip := strip_ascii;
  splitlines := splitlines_ascii;
  set_iter := elements;
  set_iter_perm := λ s, reflexivity (elements s);
|}.

End Py.

(** ** The file system and the effects of a run

    A file system maps a path to the text [read_text] returns for it; a run
    is described by the effects it performs, in order, and how it ends. *)

Abbreviation FS := (gmap string string).

Inductive effect :=
  | Mkdir (path : string)
  | WriteText (path text : string).

Inductive outcome :=
  | Finished
  | SystemExit (msg : string).

Definition nl : string := String "010" "".

(** [p / q] on [pathlib.Path]. *)
Definition path_join (p q : string) : string := p +:+ "/" +:+ q.
Infix "//" := path_join (at level 40, left associativity).

(** [s.endswith(suffix)]. *)
Definition endswith (s suffix : string) : bool :=
  String.prefix (String.rev suffix) (String.rev s).

(** [dir.rglob("*.list")], restricted to regular files: every file below
    [dir] whose name ends in [.list]. *)
Definition rglob_list (fs : FS) (dir : string) : list string :=
  List.filter (λ p, Py.startswith p (dir +:+ "/") && endswith p ".list")
              (fst <$> map_to_list fs).

(** ** scripts/sync_rules.py *)

Module SyncRules.
Import Py.

Definition RULE_ORDER : gmap string Z :=
  list_to_map
    [ ("DOMAIN", 0); ("DOMAIN-SUFFIX", 1); ("DOMAIN-KEYWORD", 2);
      ("DOMAIN-WILDCARD", 3); ("DOMAIN-REGEX", 4); ("IP-CIDR", 5);
      ("IP-CIDR6", 6); ("IP-ASN", 7); ("USER-AGENT", 8) ].

Definition CORE_SOURCES : list string :=
  [ "OpenAI"; "Claude"; "Anthropic"; "Gemini"; "BardAI"; "Copilot";
    "Civitai"; "Stripe"; "PayPal" ].

Definition sort_key (rule : string) : Z * string * string :=
  let '(rule_type, _, rest) := partition "," rule in
  (default 99 (RULE_ORDER !! rule_type), rule_type, rest).

(** [sorted(rules, key=sort_key)]. *)
Definition sorted_rules (rules : list string) : list string :=
  sorted sort_key key_lt rules.

(** The keys of the count lines, in the order of the loop of
    [build_header]. *)
Definition COUNT_KEYS : list string :=
  [ "DOMAIN"; "DOMAIN-SUFFIX"; "DOMAIN-KEYWORD"; "DOMAIN-WILDCARD";
    "DOMAIN-REGEX"; "IP-CIDR"; "IP-CIDR6"; "IP-ASN"; "USER-AGENT" ].

Definition preamble (name updated : string) : list string :=
  [ "# NAME: " +:+ name;
    "# AUTHOR: aggregated by request";
    "# REPO: git@github.com:viewer12/OverseasAI.list.git";
    "# SOURCE: https://github.com/blackmatrix7/ios_rule_script (rule/Surge)";
    "# INCLUDED-CORE: OpenAI, Claude, Anthropic, Gemini, BardAI, Copilot, Civitai, Stripe, PayPal";
    "# INCLUDED-UPSTREAM-EXTRA: see README";
    "# INCLUDED-CUSTOM: see README";
    "# UPDATED: " +:+ updated ].

(** The keys that get a count line: those for which [counts.get(key)] is
    true. *)
Definition emitted_keys (keys : list string) (counts : gmap string Z)
  : list string :=
  List.filter (counter_get_truthy counts) keys.

Definition count_line (counts : gmap string Z) (key : string) : string :=
  "# " +:+ key +:+ ": " +:+ pretty (counter_item counts key).

Definition total_line (counts : gmap string Z) : string :=
  "# TOTAL: " +:+ pretty (counter_sum counts).

Definition build_header (name updated : string) (counts : gmap string Z)
  : list string :=
  preamble name updated
  ++ (count_line counts <$> emitted_keys COUNT_KEYS counts)
  ++ [total_line counts].

(** [rule.split(",", 1)[0]]. *)
Definition rule_type_of (rule : string) : string :=
  hd "" (split_max "," 1 rule).

Record Args := { upstream : string; refresh_custom : bool }.

(** Where the script lives and what the clock shows when it runs. *)
Record Env := { repo_root : string; now : string }.

Definition rules_dir (env : Env) : string :=
  repo_root env // "rule" // "Surge" // "OverseasAI".
Definition custom_path (env : Env) : string :=
  rules_dir env // "OverseasAI_Custom.list".
Definition upstream_extra_path (env : Env) : string :=
  repo_root env // "data" // "upstream_extra_rules.txt".
Definition upstream_missing_path (env : Env) : string :=
  repo_root env // "reports" // "upstream_missing.txt".
Definition main_path (env : Env) : string :=
  rules_dir env // "OverseasAI.list".
Definition resolve_path (env : Env) : string :=
  rules_dir env // "OverseasAI_Resolve.list".
Definition surge_dir (args : Args) : string :=
  upstream args // "rule" // "Surge".
Definition core_path (args : Args) (name : string) : string :=
  surge_dir args // name // (name +:+ ".list").

Section with_runtime.
Context `{Runtime}.

Definition is_rule_line (line : string) : bool :=
  negb (String.eqb line "") && negb (startswith line "#").

(** The loop of [parse_rules] over the text of a file; the caller reads
    the text of a path it knows to exist. The loop over the extra file
    in [main] is the same. *)
Definition parse_rules (text : string) : list string :=
  List.filter is_rule_line (strip <$> splitlines text).

Definition read_text (fs : FS) (path : string) : string :=
  default "" (fs !! path).

(** Every rule line of every [*.list] file below [rule/Surge]. *)
Definition upstream_lines (fs : FS) (args : Args) : gset string :=
  list_to_set
    (rglob_list fs (surge_dir args) ≫= λ path, parse_rules (read_text fs path)).

(** The loop over [CORE_SOURCES]: it stops at the first source whose
    list is absent. *)
Fixpoint load_core (fs : FS) (args : Args) (names : list string)
    (core_rules : gset string) : string + gset string :=
  match names with
  | [] => inr core_rules
  | name :: names' =>
      let path := core_path args name in
      match fs !! path with
      | None => inl ("Missing upstream list: " +:+ path)
      | Some text =>
          load_core fs args names'
                    (core_rules ∪ list_to_set (parse_rules text))
      end
  end.

(** The rule lines of the extra file, in file order. *)
Definition extra_candidates (fs : FS) (env : Env) : list string :=
  match fs !! upstream_extra_path env with
  | None => []
  | Some text => parse_rules text
  end.

Definition upstream_extra_rules (fs : FS) (args : Args) (env : Env)
  : gset string :=
  list_to_set
    (List.filter (λ line, bool_decide (line ∈ upstream_lines fs args))
                 (extra_candidates fs env)).

Definition missing_extra (fs : FS) (args : Args) (env : Env)
  : list string :=
  List.filter (λ line, negb (bool_decide (line ∈ upstream_lines fs args)))
              (extra_candidates fs env).

Definition custom_rules (fs : FS) (env : Env) : gset string :=
  match fs !! custom_path env with
  | None => ∅
  | Some text => list_to_set (parse_rules text)
  end.

Definition merged_rules (fs : FS) (args : Args) (env : Env)
    (core_rules : gset string) : gset string :=
  core_rules ∪ upstream_extra_rules fs args env ∪ custom_rules fs env.

Definition artifact (header rules : list string) : string :=
  join nl header +:+ nl +:+ join nl rules +:+ nl.

(** The resolve view of a sorted rule list. *)
Definition resolve_rules (rules_sorted : list string) : list string :=
  sorted_rules
    (set_iter (list_to_set (replace ",no-resolve" "" <$> rules_sorted))).

Definition missing_report (missing : list string) : string :=
  match missing with
  | [] => ""
  | _ => join nl (sorted_rules missing) +:+ nl
  end.

(** The writes of a run whose core sources are all present. *)
Definition write_artifacts (fs : FS) (args : Args) (env : Env)
    (core_rules : gset string) : list effect :=
  let merged := merged_rules fs args env core_rules in
  let rules_sorted := sorted_rules (set_iter merged) in
  let counts := counter_of (rule_type_of <$> rules_sorted) in
  let header := build_header "OverseasAI" (now env) counts in
  let resolve := resolve_rules rules_sorted in
  let resolve_counts := counter_of (rule_type_of <$> resolve) in
  let resolve_header :=
    build_header "OverseasAI_Resolve" (now env) resolve_counts in
  let custom_rules_new :=
    sorted_rules
      (set_iter
         (filter (λ r, (r ∉ core_rules) ∧ (r ∉ upstream_extra_rules fs args env))
                 merged)) in
  [ WriteText (main_path env) (artifact header rules_sorted);
    WriteText (resolve_path env) (artifact resolve_header resolve) ]
  ++ (if refresh_custom args
      then [WriteText (custom_path env) (join nl custom_rules_new +:+ nl)]
      else [])
  ++ [ WriteText (upstream_missing_path env)
                 (missing_report (missing_extra fs args env)) ].

Definition main (fs : FS) (args : Args) (env : Env)
  : list effect * outcome :=
  match load_core fs args CORE_SOURCES ∅ with
  | inl msg => ([Mkdir (rules_dir env)], SystemExit msg)
  | inr core_rules =>
      (Mkdir (rules_dir env) :: write_artifacts fs args env core_rules,
       Finished)
  end.
End with_runtime.

End SyncRules.

(** ** scripts/build_clients.py *)

Module BuildClients.
Import Py.

Definition RULE_ORDER : gmap string Z :=
  list_to_map
    [ ("DOMAIN", 0); ("DOMAIN-SUFFIX", 1); ("DOMAIN-KEYWORD", 2);
      ("DOMAIN-WILDCARD", 3); ("DOMAIN-REGEX", 4); ("IP-CIDR", 5);
      ("IP-CIDR6", 6); ("IP-ASN", 7); ("USER-AGENT", 8) ].

Definition sort_key (rule : string) : Z * string * string :=
  let '(rule_type, _, rest) := partition "," rule in
  (default 99 (RULE_ORDER !! rule_type), rule_type, rest).

Definition sorted_rules (rules : list string) : list string :=
  sorted sort_key key_lt rules.

Definition COUNT_KEYS : list string :=
  [ "DOMAIN"; "DOMAIN-SUFFIX"; "DOMAIN-KEYWORD"; "DOMAIN-WILDCARD";
    "DOMAIN-REGEX"; "IP-CIDR"; "IP-CIDR6"; "IP-ASN"; "USER-AGENT" ].

Definition QX_COUNT_KEYS : list string :=
  [ "HOST"; "HOST-SUFFIX"; "HOST-KEYWORD"; "HOST-WILDCARD"; "HOST-REGEX";
    "IP-CIDR"; "IP-CIDR6"; "IP-ASN"; "USER-AGENT" ].

Definition emitted_keys (keys : list string) (counts : gmap string Z)
  : list string :=
  List.filter (counter_get_truthy counts) keys.

Definition count_line (counts : gmap string Z) (key : string) : string :=
  "# " +:+ key +:+ ": " +:+ pretty (counter_item counts key).

Definition total_line (counts : gmap string Z) : string :=
  "# TOTAL: " +:+ pretty (counter_sum counts).

Definition build_header (name : string) (base_meta : list string)
    (counts : gmap string Z) : list string :=
  ["# NAME: " +:+ name] ++ base_meta
  ++ (count_line counts <$> emitted_keys COUNT_KEYS counts)
  ++ [total_line counts].

Definition build_qx_header (name : string) (base_meta : list string)
    (counts : gmap string Z) : list string :=
  ["# NAME: " +:+ name] ++ base_meta
  ++ (count_line counts <$> emitted_keys QX_COUNT_KEYS counts)
  ++ [total_line counts].

Definition count_prefixes : list string :=
  [ "# DOMAIN"; "# IP-"; "# USER-AGENT"; "# TOTAL" ].

(** The header lines kept as meta: neither the name nor a count. *)
Definition meta_of (header : list string) : list string :=
  List.filter
    (λ line, negb (startswith line "# NAME:")
             && negb (startswith_any line count_prefixes))
    header.

(** The type of the remapped dialect for a canonical type. *)
Definition qx_type_of (rule_type : string) : string :=
  if String.eqb rule_type "DOMAIN" then "HOST"
  else if String.eqb rule_type "DOMAIN-SUFFIX" then "HOST-SUFFIX"
  else if String.eqb rule_type "DOMAIN-KEYWORD" then "HOST-KEYWORD"
  else if String.eqb rule_type "DOMAIN-WILDCARD" then "HOST-WILDCARD"
  else if String.eqb rule_type "DOMAIN-REGEX" then "HOST-REGEX"
  else rule_type.

(** [parts[1] if len(parts) > 1 else ""]. *)
Definition value_of (parts : list string) : string :=
  match parts with
  | _ :: value :: _ => value
  | _ => ""
  end.

(** The body of the transform loop: the type counted and the line
    emitted for one rule. [extra] is computed by the script and not
    used. *)
Definition qx_transform (rule : string) : string * string :=
  let parts := split "," rule in
  let rule_type := hd "" parts in
  let value := value_of parts in
  let extra :=
    List.filter (λ x, negb (String.eqb x "no-resolve")) (drop 2 parts) in
  let qx_type := qx_type_of rule_type in
  (qx_type, qx_type +:+ "," +:+ value +:+ ",OverseasAI").

Definition qx_line (rule : string) : string := snd (qx_transform rule).

Definition rule_type_of (rule : string) : string :=
  hd "" (split_max "," 1 rule).

Definition artifact (header rules : list string) : string :=
  join nl header +:+ nl +:+ join nl rules +:+ nl.

Section with_runtime.
Context `{Runtime}.

(** [parse_rules]: the comment lines and the rule lines of a text. *)
Definition parse_rules (text : string) : list string * list string :=
  let lines :=
    List.filter (λ line, negb (String.eqb line ""))
                (strip <$> splitlines text) in
  (List.filter (λ line, startswith line "#") lines,
   List.filter (λ line, negb (startswith line "#")) lines).

(** [main], from the text of the canonical list. *)
Definition main (repo_root : string) (surge_text : string)
  : list effect :=
  let '(header, rules) := parse_rules surge_text in
  let meta := meta_of header in
  let rules_sorted := sorted_rules rules in
  let counts := counter_of (rule_type_of <$> rules_sorted) in
  let surge_header := build_header "OverseasAI" meta counts in
  let qx_rules := qx_line <$> rules_sorted in
  let qx_counts := counter_of ((fst ∘ qx_transform) <$> rules_sorted) in
  let qx_header := build_qx_header "OverseasAI" meta qx_counts in
  (["Clash"; "Loon"; "Shadowrocket"] ≫= λ platform,
     let out_dir := repo_root // "rule" // platform // "OverseasAI" in
     [ Mkdir out_dir;
       WriteText (out_dir // "OverseasAI.list")
                 (artifact surge_header rules_sorted) ])
  ++ (["QuantumultX"; "Quantumult"] ≫= λ platform,
     let out_dir := repo_root // "rule" // platform // "OverseasAI" in
     [ Mkdir out_dir;
       WriteText (out_dir // "OverseasAI.list")
                 (artifact qx_header qx_rules) ]).
End with_runtime.

End BuildClients.

(** ** scripts/check_domains.py *)

Module CheckDomains.
Import Py.

Definition RESOLVERS : list string := ["1.1.1.1"; "8.8.8.8"].
Definition THRESHOLD : Z := 3.
Definition QTYPES : list string := ["A"; "AAAA"].
Definition RULE_TYPES_CHECK : gset string := {["DOMAIN"; "DOMAIN-SUFFIX"]}.

(** The three values [check_domain] returns. *)
Inductive Status := OK | NXDOMAIN | UNKNOWN.

Definition status_str (s : Status) : string :=
  match s with OK => "OK" | NXDOMAIN => "NXDOMAIN" | UNKNOWN => "UNKNOWN" end.

(** What one call of [resolver.resolve(domain, qtype,
    raise_on_no_answer=False)] does: it returns an answer, whose [rrset]
    is there or not, or it raises one of the exceptions of dnspython,
    all of them subclasses of [DNSException]. *)
Inductive QueryOutcome :=
  | Answer (rrset_present : bool)
  | RaiseNoAnswer
  | RaiseNXDOMAIN
  | RaiseNoNameservers
  | RaiseTimeout
  | RaiseDNSException.

(** The name servers: the outcome of a query of a resolver for a domain
    and a record kind. *)
Definition DNS := string → string → string → QueryOutcome.

(** A call of [resolver.resolve] that was made, and its outcome. *)
Record Attempt := {
  attempt_resolver : string;
  attempt_qtype : string;
  attempt_outcome : QueryOutcome;
}.

(** The two flags of [check_domain]; [attempts] records the calls made so
    far and is not a variable of the script. *)
Record Flags := {
  ok : bool;
  unknown : bool;
  attempts : list Attempt;
}.

Definition record_attempt (a : Attempt) (st : Flags) : Flags :=
  {| ok := ok st; unknown := unknown st; attempts := attempts st ++ [a] |}.
Definition set_ok (st : Flags) : Flags :=
  {| ok := true; unknown := unknown st; attempts := attempts st |}.
Definition set_unknown (st : Flags) : Flags :=
  {| ok := ok st; unknown := true; attempts := attempts st |}.

(** The loop over the record kinds for one resolver. The inner [try]
    handles [NoAnswer] and [NXDOMAIN] and the loop goes on; any other
    exception leaves the loop and reaches the outer handlers: the second
    component says so. *)
Fixpoint query_kinds (dns : DNS) (resolver_ip domain : string)
    (qtypes : list string) (st : Flags) : Flags * bool :=
  match qtypes with
  | [] => (st, false)
  | qtype :: qtypes' =>
      let outcome := dns resolver_ip domain qtype in
      let st := record_attempt
                  {| attempt_resolver := resolver_ip;
                     attempt_qtype := qtype;
                     attempt_outcome := outcome |} st in
      match outcome with
      | Answer _ => query_kinds dns resolver_ip domain qtypes' (set_ok st)
      | RaiseNoAnswer => query_kinds dns resolver_ip domain qtypes' (set_ok st)
      | RaiseNXDOMAIN => query_kinds dns resolver_ip domain qtypes' st
      | RaiseNoNameservers | RaiseTimeout | RaiseDNSException => (st, true)
      end
  end.

(** The loop over the resolvers. *)
Fixpoint query_resolvers (dns : DNS) (domain : string)
    (resolvers : list string) (st : Flags) : Flags :=
  match resolvers with
  | [] => st
  | resolver_ip :: resolvers' =>
      let '(st, raised) := query_kinds dns resolver_ip domain QTYPES st in
      query_resolvers dns domain resolvers'
                      (if raised then set_unknown st else st)
  end.

Definition status_of (st : Flags) : Status :=
  if ok st then OK else if unknown st then UNKNOWN else NXDOMAIN.

(** [check_domain], with the calls it made. *)
Definition check_domain_run (dns : DNS) (domain : string)
  : Status * list Attempt :=
  let st := query_resolvers dns domain RESOLVERS
              {| ok := false; unknown := false; attempts := [] |} in
  (status_of st, attempts st).

Definition check_domain (dns : DNS) (domain : string) : Status :=
  fst (check_domain_run dns domain).

(** A record of the persisted state. The state file is written by this
    script only, with the three keys below. *)
Record LivenessRecord := {
  count : Z;
  last_status : Status;
  last_checked : string;
}.

(** The part of a rule [iter_domains] collects, if any. *)
Definition domain_of (rule : string) : option string :=
  let parts := split "," rule in
  if bool_decide (hd "" parts ∈ RULE_TYPES_CHECK)
  then match parts with
       | _ :: domain :: _ => Some domain
       | _ => None
       end
  else None.

(** The variables the main loop updates. *)
Record Loop := {
  updated_state : gmap string LivenessRecord;
  counters : gmap string Z;
  candidates : list string;
  unknowns : list string;
}.

(** The body of the main loop for one domain. [utcnow] gives the text of
    [datetime.utcnow().isoformat() + "Z"] when the domain is reached. *)
Definition advance (state : gmap string LivenessRecord)
    (results : gmap string Status) (utcnow : string → string)
    (acc : Loop) (domain : string) : Loop :=
  let status := default UNKNOWN (results !! domain) in
  let prev_count :=
    match state !! domain with
    | Some prev => count prev
    | None => 0
    end in
  let count :=
    match status with
    | NXDOMAIN => prev_count + 1
    | OK => 0
    | UNKNOWN => prev_count
    end in
  {| updated_state :=
       <[domain := {| count := count;
                      last_status := status;
                      last_checked := utcnow domain |}]> (updated_state acc);
     counters := counter_incr (counters acc) (status_str status);
     candidates :=
       if THRESHOLD <=? count then candidates acc ++ [domain]
       else candidates acc;
     unknowns :=
       match status with
       | UNKNOWN => unknowns acc ++ [domain]
       | _ => unknowns acc
       end |}.

Inductive effect :=
  | Mkdir (path : string)
  | WriteState (path : string) (state : gmap string LivenessRecord)
  | WriteText (path text : string).

Record Env := {
  repo_root : string;
  utcnow : string → string;
  report_now : string;
}.

Definition bullet_list (l : list string) : list string :=
  match l with
  | [] => ["- (none)"]
  | _ => (λ d, "- " +:+ d) <$> l
  end.

Definition report_lines (env : Env) (domains : list string)
    (counters : gmap string Z) (candidates unknowns : list string)
  : list string :=
  [ "# NXDOMAIN Report (" +:+ report_now env +:+ ")";
    "";
    "Checked domains: " +:+ pretty (Z.of_nat (length domains));
    "OK: " +:+ pretty (counter_item counters "OK");
    "NXDOMAIN: " +:+ pretty (counter_item counters "NXDOMAIN");
    "UNKNOWN: " +:+ pretty (counter_item counters "UNKNOWN");
    "";
    "Threshold: " +:+ pretty THRESHOLD +:+ " consecutive NXDOMAIN";
    "";
    "## Candidates" ]
  ++ bullet_list candidates
  ++ [ ""; "## Unknowns" ]
  ++ bullet_list unknowns.

Section with_runtime.
Context `{Runtime}.

Definition parse_rules (text : string) : list string :=
  List.filter
    (λ line, negb (String.eqb line "") && negb (startswith line "#"))
    (strip <$> splitlines text).

(** [sorted(set(l))] on strings. *)
Definition sorted_set (l : list string) : list string :=
  sorted id str_lt (set_iter (list_to_set l)).

Definition iter_domains (rules : list string) : list string :=
  sorted_set (omap domain_of rules).

(** The pool: every domain is checked on its own and its status is
    stored under its name. *)
Definition collect (dns : DNS) (domains : list string)
  : gmap string Status :=
  list_to_map ((λ domain, (domain, check_domain dns domain)) <$> domains).

(** The main loop, from the prior state. *)
Definition run_loop (state : gmap string LivenessRecord)
    (results : gmap string Status) (utcnow : string → string)
    (domains : list string) : Loop :=
  fold_left (advance state results utcnow) domains
    {| updated_state := ∅; counters := ∅;
       candidates := []; unknowns := [] |}.

(** The state of the main loop when it ends, from the text of the
    canonical list and the content of the state file ([None] when the
    file is absent, the empty map when it is empty). *)
Definition run (env : Env) (dns : DNS) (rules_text : string)
    (state_file : option (gmap string LivenessRecord)) : Loop :=
  let rules := parse_rules rules_text in
  let domains := iter_domains rules in
  let state := default ∅ state_file in
  let results := collect dns domains in
  run_loop state results (utcnow env) domains.

(** The state a run leaves in the state file. *)
Definition written_state (env : Env) (dns : DNS) (rules_text : string)
    (state_file : option (gmap string LivenessRecord))
  : gmap string LivenessRecord :=
  updated_state (run env dns rules_text state_file).

(** The candidates a run reports. *)
Definition reported_candidates (env : Env) (dns : DNS)
    (rules_text : string)
    (state_file : option (gmap string LivenessRecord)) : list string :=
  sorted_set (candidates (run env dns rules_text state_file)).

Definition main (env : Env) (dns : DNS) (rules_text : string)
    (state_file : option (gmap string LivenessRecord)) : list effect :=
  let reports_dir := repo_root env // "reports" in
  let domains := iter_domains (parse_rules rules_text) in
  let final := run env dns rules_text state_file in
  let candidates := reported_candidates env dns rules_text state_file in
  let unknowns := sorted_set (unknowns final) in
  [ Mkdir reports_dir;
    WriteState (repo_root env // "data" // "nxdomain_state.json")
               (written_state env dns rules_text state_file);
    WriteText (reports_dir // "nxdomain_report.md")
              (join nl (report_lines env domains (counters final)
                                     candidates unknowns) +:+ nl);
    WriteText (reports_dir // "nxdomain_candidates.txt")
              (join nl candidates +:+ nl) ].
End with_runtime.

End CheckDomains.

(** ** Vocabulary of the specification *)

(** Whether a character occurs in a string. *)
Fixpoint contains (c : ascii) (s : string) : bool :=
  match s with
  | EmptyString => false
  | String c' s' => Ascii.eqb c' c || contains c s'
  end.

(** A field of a rule: a string without a comma. *)
Definition comma_free (s : string) : Prop := contains "," s = false.

(** The policy-group label of the remapped dialect. *)
Definition GROUP : string := "OverseasAI".

(** The four kinds of outcome of an attempt, in the words of the
    specification. *)
Inductive AttemptKind :=
  | AnsweredWithData
  | AnsweredNoData
  | NameDoesNotExist
  | ResolutionFailed.

Definition kind_of (o : CheckDomains.QueryOutcome) : AttemptKind :=
  match o with
  | CheckDomains.Answer true => AnsweredWithData
  | CheckDomains.Answer false => AnsweredNoData
  | CheckDomains.RaiseNoAnswer => AnsweredNoData
  | CheckDomains.RaiseNXDOMAIN => NameDoesNotExist
  | CheckDomains.RaiseNoNameservers => ResolutionFailed
  | CheckDomains.RaiseTimeout => ResolutionFailed
  | CheckDomains.RaiseDNSException => ResolutionFailed
  end.

Definition attempt_kind (a : CheckDomains.Attempt) : AttemptKind :=
  kind_of (CheckDomains.attempt_outcome a).

Definition is_answered (k : AttemptKind) : bool :=
  match k with
  | AnsweredWithData | AnsweredNoData => true
  | _ => false
  end.

Definition is_failed (k : AttemptKind) : bool :=
  match k with
  | ResolutionFailed => true
  | _ => false
  end.

(** The aggregate of the specification over the attempts of a domain. *)
Definition aggregate (kinds : list AttemptKind) : CheckDomains.Status :=
  if existsb is_answered kinds then CheckDomains.OK
  else if existsb is_failed kinds then CheckDomains.UNKNOWN
  else CheckDomains.NXDOMAIN.

(** The attempts the script makes on one resolver: the address query, and
    the v6 query unless the address query failed. *)
Definition attempts_on (dns : CheckDomains.DNS) (domain resolver_ip : string)
  : list CheckDomains.Attempt :=
  let first := dns resolver_ip domain "A" in
  {| CheckDomains.attempt_resolver := resolver_ip;
     CheckDomains.attempt_qtype := "A";
     CheckDomains.attempt_outcome := first |}
  :: (if is_failed (kind_of first) then []
      else [ {| CheckDomains.attempt_resolver := resolver_ip;
                CheckDomains.attempt_qtype := "AAAA";
                CheckDomains.attempt_outcome := dns resolver_ip domain "AAAA" |} ]).

(** The counter a domain has in the prior state: that of its record, or
    zero when it has none. *)
Definition prior_count (state : gmap string CheckDomains.LivenessRecord)
    (domain : string) : Z :=
  match state !! domain with
  | Some prev => CheckDomains.count prev
  | None => 0
  end.

(** The transition of the specification. *)
Definition next_count (c : Z) (s : CheckDomains.Status) : Z :=
  match s with
  | CheckDomains.OK => 0
  | CheckDomains.NXDOMAIN => c + 1
  | CheckDomains.UNKNOWN => c
  end.

(** The record of a domain after a run in which its status is the one
    [results] holds for it. *)
Definition stored_record (state : gmap string CheckDomains.LivenessRecord)
    (results : gmap string CheckDomains.Status) (utcnow : string → string)
    (domain : string) : CheckDomains.LivenessRecord :=
  let status := default CheckDomains.UNKNOWN (results !! domain) in
  {| CheckDomains.count := next_count (prior_count state domain) status;
     CheckDomains.last_status := status;
     CheckDomains.last_checked := utcnow domain |}.

(** The property that a run keeps the record of a domain that is in the prior
    state and no longer in the rule corpus. *)
Definition keeps_absent_records `{Py.Runtime} (env : CheckDomains.Env)
    (dns : CheckDomains.DNS) (rules_text : string)
    (state_file : option (gmap string CheckDomains.LivenessRecord)) : Prop :=
  ∀ domain prev,
    default ∅ state_file !! domain = Some prev →
    domain ∉ CheckDomains.iter_domains (CheckDomains.parse_rules rules_text) →
    CheckDomains.written_state env dns rules_text state_file !! domain
    = Some prev.

(** A run of the monitor used in the examples: the state file holds one
    record, with count 2, and no name server knows any name. *)
Definition example_env : CheckDomains.Env :=
  {| CheckDomains.repo_root := "/repo";
     CheckDomains.utcnow := λ _, "2024-05-01T00:00:00Z";
     CheckDomains.report_now := "2024-05-01 00:00:00Z" |}.

Definition example_dns : CheckDomains.DNS :=
  λ _ _ _, CheckDomains.RaiseNXDOMAIN.

Definition example_state : gmap string CheckDomains.LivenessRecord :=
  {[ "gone.example" :=
       {| CheckDomains.count := 2;
          CheckDomains.last_status := CheckDomains.NXDOMAIN;
          CheckDomains.last_checked := "2024-04-30T00:00:00Z" |} ]}.

(** The property that a candidate of the extra file that is nowhere in the
    upstream lists is never in the merged set and is in the missing
    report, for a run whose core sources are all present. *)
Definition missing_extra_never_merged `{Py.Runtime} (fs : FS)
    (args : SyncRules.Args) (env : SyncRules.Env) : Prop :=
  ∀ core line,
    SyncRules.load_core fs args SyncRules.CORE_SOURCES ∅ = inr core →
    line ∈ SyncRules.extra_candidates fs env →
    line ∉ SyncRules.upstream_lines fs args →
    (line ∉ SyncRules.merged_rules fs args env core)
    ∧ line ∈ SyncRules.sorted_rules (SyncRules.missing_extra fs args env).

(** A merge used in the examples: every core list is there, with one rule
    of its own, and the extra file and the custom file both hold the rule
    [DOMAIN,extra.example], which no upstream list has. *)
Definition example_args : SyncRules.Args :=
  {| SyncRules.upstream := "/up"; SyncRules.refresh_custom := false |}.

Definition example_sync_env : SyncRules.Env :=
  {| SyncRules.repo_root := "/repo"; SyncRules.now := "2024-05-01 00:00:00" |}.

Definition example_fs : FS :=
  list_to_map
    ([ (SyncRules.upstream_extra_path example_sync_env, "DOMAIN,extra.example");
       (SyncRules.custom_path example_sync_env, "DOMAIN,extra.example") ]
     ++ ((λ name, (SyncRules.core_path example_args name,
                   "DOMAIN-SUFFIX," +:+ name +:+ ".example"))
           <$> SyncRules.CORE_SOURCES)).

(** The core rules of the example merge. *)
Definition example_core : gset string :=
  list_to_set ((λ name, "DOMAIN-SUFFIX," +:+ name +:+ ".example")
                 <$> SyncRules.CORE_SOURCES).

(** Counts with a type outside the enumeration, and counts without. *)
Definition example_counts : gmap string Z :=
  Py.counter_of ["DOMAIN"; "DOMAIN"; "PROCESS-NAME"].

Definition example_known_counts : gmap string Z :=
  Py.counter_of ["DOMAIN"; "DOMAIN"; "IP-CIDR"].

(** The resolve view in the words of the specification: the modifiers of a
    rule are its fields after the value, and the do-not-resolve modifier
    is taken out of them; type, value and the other modifiers stay. *)
Definition strip_modifier (rule : string) : string :=
  match Py.split "," rule with
  | rule_type :: value :: modifiers =>
      Py.join ","
        (rule_type :: value
         :: List.filter (λ m, negb (String.eqb m "no-resolve")) modifiers)
  | _ => rule
  end.

Definition resolve_view `{Py.Runtime} (rules_sorted : list string)
  : list string :=
  SyncRules.sorted_rules
    (Py.set_iter (list_to_set (strip_modifier <$> rules_sorted))).

(** The order [<=] of Python on the key tuples, which [sorted] knows
    through [<] only. *)
Definition key_le (k1 k2 : Z * string * string) : Prop :=
  Py.key_lt k2 k1 = false.

(** The do-not-resolve modifier. *)
Definition NO_RESOLVE : string := "no-resolve".

(** A string that opens a match of [,no-resolve] when a comma precedes
    it. *)
Definition opens_match (s : string) : bool := String.prefix NO_RESOLVE s.

(** The text of the fields after the first one, each with its comma. *)
Fixpoint tail_text (fields : list string) : string :=
  match fields with
  | [] => ""
  | f :: fields' => "," +:+ f +:+ tail_text fields'
  end.

(** Name servers of which the first times out on the address query and
    would answer the v6 query, and the second knows no name. *)
Definition example_flaky_dns : CheckDomains.DNS :=
  λ resolver_ip _ qtype,
    if String.eqb resolver_ip "1.1.1.1"
    then if String.eqb qtype "A" then CheckDomains.RaiseTimeout
         else CheckDomains.Answer true
    else CheckDomains.RaiseNXDOMAIN.

(** The rank of a rule: the first component of its sort key. *)
Definition rule_rank (rule : string) : Z := (SyncRules.sort_key rule).1.1.

(** The order of the canonical list, spelled out: by rank, then by type,
    then by the text after the first comma, strings being compared byte by
    byte. *)
Definition rule_le (x y : string) : Prop :=
  let '(r1, t1, v1) := SyncRules.sort_key x in
  let '(r2, t2, v2) := SyncRules.sort_key y in
  r1 < r2
  ∨ (r1 = r2 ∧ ((t1 ≠ t2 ∧ String.le t1 t2) ∨ (t1 = t2 ∧ String.le v1 v2))).

(** Equality of statuses, as a test. *)
Definition status_eqb (s1 s2 : CheckDomains.Status) : bool :=
  String.eqb (CheckDomains.status_str s1) (CheckDomains.status_str s2).

(** The runs of the monitor, one after the other: each has its clock, its
    name servers and its rule text, and reads the state the run before it
    wrote. [state_after runs n state_file] is the state after the first
    [n] of them. *)
Fixpoint state_after `{Py.Runtime}
    (runs : nat → CheckDomains.Env * CheckDomains.DNS * string) (n : nat)
    (state_file : option (gmap string CheckDomains.LivenessRecord))
  : gmap string CheckDomains.LivenessRecord :=
  match n with
  | O => default ∅ state_file
  | S k =>
      let '(env, dns, rules_text) := runs k in
      CheckDomains.written_state env dns rules_text
        (Some (state_after runs k state_file))
  end.

(** Runs that all see the rule [DOMAIN,gone.example] and name servers that
    know no name. *)
Definition example_runs : nat → CheckDomains.Env * CheckDomains.DNS * string :=
  λ _, (example_env, example_dns, "DOMAIN,gone.example").

(** The path an effect creates or writes. *)
Definition effect_path (e : effect) : string :=
  match e with
  | Mkdir path => path
  | WriteText path _ => path
  end.

(** The example merge, asked to write the custom list anew. *)
Definition example_refresh_args : SyncRules.Args :=
  {| SyncRules.upstream := "/up"; SyncRules.refresh_custom := true |}.

(** The five types the remapped dialect renames. *)
Definition DOMAIN_TYPES : list string :=
  [ "DOMAIN"; "DOMAIN-SUFFIX"; "DOMAIN-KEYWORD"; "DOMAIN-WILDCARD";
    "DOMAIN-REGEX" ].

(** A rule on which deleting the text [,no-resolve] cannot touch anything
    but a whole do-not-resolve modifier: its value does not begin with
    [no-resolve], and each of its modifiers is [no-resolve] or does not
    begin with it. *)
Definition modifier_safe (rule : string) : Prop :=
  match Py.split "," rule with
  | _ :: value :: modifiers =>
      opens_match value = false
      ∧ Forall (λ m, m = NO_RESOLVE ∨ opens_match m = false) modifiers
  | _ => True
  end.

(** The artifact sync_rules.py writes for a list of rules at a given
    time. *)
Definition canonical_text (updated : string) (rules : list string) : string :=
  let rules_sorted := SyncRules.sorted_rules rules in
  SyncRules.artifact
    (SyncRules.build_header "OverseasAI" updated
       (Py.counter_of (SyncRules.rule_type_of <$> rules_sorted)))
    rules_sorted.

(** Its lines. *)
Definition canonical_lines (updated : string) (rules : list string)
  : list string :=
  let rules_sorted := SyncRules.sorted_rules rules in
  SyncRules.build_header "OverseasAI" updated
    (Py.counter_of (SyncRules.rule_type_of <$> rules_sorted))
  ++ rules_sorted.

(** Every query the specification speaks of: each resolver is asked for
    both record kinds, and each answer, or failure, is an outcome. *)
Definition RECORD_KINDS : list string := ["A"; "AAAA"].

Definition all_outcomes (dns : CheckDomains.DNS) (domain : string)
  : list AttemptKind :=
  resolver_ip ← CheckDomains.RESOLVERS;
  qtype ← RECORD_KINDS;
  [kind_of (dns resolver_ip domain qtype)].

(** The property that the status of a domain is the aggregate of the
    outcomes of all these queries. *)
Definition classifies_all_outcomes (dns : CheckDomains.DNS) (domain : string)
  : Prop :=
  CheckDomains.check_domain dns domain = aggregate (all_outcomes dns domain).

(** The remapping of types of the remapped dialect, as a table; a type
    that is not in the table stays. *)
Definition REMAP : list (string * string) :=
  [ ("DOMAIN", "HOST"); ("DOMAIN-SUFFIX", "HOST-SUFFIX");
    ("DOMAIN-KEYWORD", "HOST-KEYWORD"); ("DOMAIN-WILDCARD", "HOST-WILDCARD");
    ("DOMAIN-REGEX", "HOST-REGEX") ].

Definition remap_type (t : string) : string :=
  default t ((list_to_map REMAP : gmap string string) !! t).

(** The enumeration of the types that may have a count line, in the order
    of the lines. *)
Definition TYPE_ENUMERATION : list string :=
  [ "DOMAIN"; "DOMAIN-SUFFIX"; "DOMAIN-KEYWORD"; "DOMAIN-WILDCARD";
    "DOMAIN-REGEX"; "IP-CIDR"; "IP-CIDR6"; "IP-ASN"; "USER-AGENT" ].

(** The text of the count line of a type with its count, and of the total
    line. *)
Definition count_line_text (entry : string * Z) : string :=
  "# " +:+ entry.1 +:+ ": " +:+ pretty entry.2.

Definition total_line_text (n : Z) : string := "# TOTAL: " +:+ pretty n.

(** The lines of a header that has the lines [pre] first, then a count line
    for each entry of [entries], then the total line showing [total]. *)
Definition header_lines (pre : list string) (entries : list (string * Z))
    (total : Z) : list string :=
  pre ++ (count_line_text <$> entries) ++ [total_line_text total].

(** The types of the enumeration whose count is not zero, each with its
    count, in the order of the enumeration. *)
Definition emitted_counts (counts : gmap string Z) : list (string * Z) :=
  (λ k, (k, Py.counter_item counts k))
    <$> List.filter (λ k, negb (Py.counter_item counts k =? 0))
          TYPE_ENUMERATION.

(** The sum of the counts that count lines show. *)
Definition shown_sum (entries : list (string * Z)) : Z :=
  foldr Z.add 0 (snd <$> entries).

(** The lines before the count lines in a header of sync_rules.py and in
    one of build_clients.py. *)
Definition sync_preamble_text (name updated : string) : list string :=
  [ "# NAME: " +:+ name;
    "# AUTHOR: aggregated by request";
    "# REPO: git@github.com:viewer12/OverseasAI.list.git";
    "# SOURCE: https://github.com/blackmatrix7/ios_rule_script (rule/Surge)";
    "# INCLUDED-CORE: OpenAI, Claude, Anthropic, Gemini, BardAI, Copilot, Civitai, Stripe, PayPal";
    "# INCLUDED-UPSTREAM-EXTRA: see README";
    "# INCLUDED-CUSTOM: see README";
    "# UPDATED: " +:+ updated ].

Definition client_preamble_text (name : string) (base_meta : list string)
  : list string :=
  ("# NAME: " +:+ name) :: base_meta.

(** The property that a header is its first lines, the count lines of the
    types of the enumeration with a non-zero count, and a total line that
    shows the sum of the counts on these count lines. *)
Definition total_is_sum_of_count_lines (counts : gmap string Z) : Prop :=
  (∀ name updated,
     SyncRules.build_header name updated counts
     = header_lines (sync_preamble_text name updated) (emitted_counts counts)
         (shown_sum (emitted_counts counts)))
  ∧ (∀ name base_meta,
     BuildClients.build_header name base_meta counts
     = header_lines (client_preamble_text name base_meta)
         (emitted_counts counts) (shown_sum (emitted_counts counts))).

(** The number of rules whose type, the first comma-separated field, is
    [k]. *)
Definition type_count (rules : list string) (k : string) : Z :=
  Z.of_nat (length (List.filter
                      (λ rule, String.eqb (hd "" (Py.split "," rule)) k)
                      rules)).

(** The types of the enumeration that some rule has, each with the number
    of rules that have it, in the order of the enumeration. *)
Definition counted_types (rules : list string) : list (string * Z) :=
  (λ k, (k, type_count rules k))
    <$> List.filter (λ k, 0 <? type_count rules k) TYPE_ENUMERATION.

(** The number of rules whose type is in the enumeration, and of the
    others. *)
Definition enumerated_rules (rules : list string) : Z :=
  Z.of_nat (length (List.filter
                      (λ rule, bool_decide
                                 (hd "" (Py.split "," rule) ∈ TYPE_ENUMERATION))
                      rules)).

Definition other_rules (rules : list string) : Z :=
  Z.of_nat (length (List.filter
                      (λ rule, negb (bool_decide
                                 (hd "" (Py.split "," rule) ∈ TYPE_ENUMERATION)))
                      rules)).

(** The merge on a disk that takes every write into a directory that is
    there. The script creates the directory of the rule artifacts before
    it writes them, and never the directory [reports] of the repository:
    [write_text] of the missing report, the last write of [main], raises
    FileNotFoundError when that directory is not there, after the writes
    before it have been done. *)
Inductive merge_end :=
  | MergeDone
  | MergeExit (msg : string)
  | MergeFileNotFound (path : string).

Definition main_on_disk `{Py.Runtime} (reports_dir_exists : bool) (fs : FS)
    (args : SyncRules.Args) (env : SyncRules.Env)
  : list effect * merge_end :=
  match SyncRules.main fs args env with
  | (effects, SystemExit msg) => (effects, MergeExit msg)
  | (effects, Finished) =>
      if reports_dir_exists then (effects, MergeDone)
      else (removelast effects,
            MergeFileNotFound (SyncRules.upstream_missing_path env))
  end.

(** * Properties *)

(** ** Strings, fields and lines *)

Lemma app_cons (c : ascii) (a b : string) :
  String c a +:+ b = String c (a +:+ b).
Proof. reflexivity. Qed.

Lemma app_nil_l (s : string) : "" +:+ s = s.
Proof. reflexivity. Qed.

Lemma app_nil_r_str (s : string) : s +:+ "" = s.
Proof. induction s as [|c s IH]; [done|]. by rewrite app_cons, IH. Qed.

Lemma app_assoc_str (a b c : string) : (a +:+ b) +:+ c = a +:+ (b +:+ c).
Proof.
  induction a as [|x a IH]; [done|].
  by rewrite !app_cons, IH.
Qed.

Lemma contains_app (c : ascii) (a b : string) :
  contains c (a +:+ b) = contains c a || contains c b.
Proof.
  induction a as [|x a IH]; [done|].
  rewrite app_cons. simpl. rewrite IH. by rewrite orb_assoc.
Qed.

Lemma split_not_nil (sep : ascii) (s : string) : Py.split sep s ≠ [].
Proof.
  induction s as [|c s IH]; simpl; [done|].
  destruct (Ascii.eqb c sep); [done|].
  by destruct (Py.split sep s).
Qed.

Lemma split_free (sep : ascii) (s : string) :
  contains sep s = false → Py.split sep s = [s].
Proof.
  induction s as [|c s IH]; simpl; [done|].
  destruct (Ascii.eqb c sep); simpl; [done|].
  intros Hs. by rewrite IH.
Qed.

Lemma split_app_sep (sep : ascii) (a b : string) :
  contains sep a = false →
  Py.split sep (a +:+ String sep b) = a :: Py.split sep b.
Proof.
  induction a as [|c a IH]; simpl.
  - intros _. rewrite ?app_nil_l. simpl. by rewrite Ascii.eqb_refl.
  - rewrite ?app_cons. simpl.
    destruct (Ascii.eqb c sep); simpl; [done|].
    intros Ha. by rewrite IH.
Qed.

Lemma split_fields_free (sep : ascii) (s : string) :
  Forall (λ f, contains sep f = false) (Py.split sep s).
Proof.
  induction s as [|c s IH]; simpl.
  - by repeat constructor.
  - destruct (Ascii.eqb c sep) eqn:Hc.
    + by constructor.
    + destruct (Py.split sep s) as [|f fs]; simpl.
      * repeat constructor. simpl. by rewrite Hc.
      * inversion IH; subst. constructor; [|done]. simpl. by rewrite Hc.
Qed.

Lemma split_join (sep : ascii) (f : string) (fs : list string) :
  Forall (λ f, contains sep f = false) (f :: fs) →
  Py.split sep (Py.join (String sep "") (f :: fs)) = f :: fs.
Proof.
  revert f. induction fs as [|g fs IH]; intros f Hall.
  - inversion Hall; subst. by apply split_free.
  - inversion Hall as [|? ? Hf Hrest]; subst.
    change (Py.join (String sep "") (f :: g :: fs))
      with (f +:+ String sep "" +:+ Py.join (String sep "") (g :: fs)).
    rewrite app_cons, app_nil_l.
    rewrite split_app_sep by done. by rewrite IH.
Qed.

Lemma split_hd_free (rule : string) : comma_free (hd "" (Py.split "," rule)).
Proof.
  pose proof (split_fields_free "," rule) as Hall.
  destruct (Py.split "," rule); [done|]. by inversion Hall.
Qed.

Lemma value_of_free (rule : string) :
  comma_free (BuildClients.value_of (Py.split "," rule)).
Proof.
  pose proof (split_fields_free "," rule) as Hall.
  destruct (Py.split "," rule) as [|t [|v fs]]; [done..|].
  inversion Hall as [|? ? _ Hrest]; subst. by inversion Hrest.
Qed.

Lemma qx_type_of_free (t : string) :
  comma_free t → comma_free (BuildClients.qx_type_of t).
Proof.
  intros Ht. unfold BuildClients.qx_type_of.
  repeat (destruct (String.eqb t _); [done|]). done.
Qed.

Lemma qx_line_fields (t v : string) :
  comma_free t → comma_free v →
  Py.split "," (t +:+ "," +:+ v +:+ ",OverseasAI") = [t; v; GROUP].
Proof.
  intros Ht Hv. rewrite app_cons, app_nil_l.
  rewrite (split_app_sep "," t) by done.
  by rewrite (split_app_sep "," v) by done.
Qed.

(** ** The remapped dialect (build_clients.py) *)

(** C7. The transform of the remapped dialect sends a rule with type [t],
    value [v] and any modifiers to the line [T,v,OverseasAI], where [T] is
    HOST, HOST-SUFFIX, HOST-KEYWORD, HOST-WILDCARD or HOST-REGEX for the
    five DOMAIN types and [t] itself for every other type: the modifiers,
    the do-not-resolve one among them, are dropped and the group label is
    the last field. DOMAIN-SUFFIX,x.com,no-resolve gives
    HOST-SUFFIX,x.com,OverseasAI. *)
Theorem remap_transform_correct (t v : string) (mods : list string) :
  comma_free t → comma_free v → Forall comma_free mods →
  BuildClients.qx_line (Py.join "," (t :: v :: mods))
    = Py.join "," [BuildClients.qx_type_of t; v; GROUP]
  ∧ Py.split "," (BuildClients.qx_line (Py.join "," (t :: v :: mods)))
    = [BuildClients.qx_type_of t; v; GROUP]
  ∧ BuildClients.qx_type_of "DOMAIN" = "HOST"
  ∧ BuildClients.qx_type_of "DOMAIN-SUFFIX" = "HOST-SUFFIX"
  ∧ BuildClients.qx_type_of "DOMAIN-KEYWORD" = "HOST-KEYWORD"
  ∧ BuildClients.qx_type_of "DOMAIN-WILDCARD" = "HOST-WILDCARD"
  ∧ BuildClients.qx_type_of "DOMAIN-REGEX" = "HOST-REGEX"
  ∧ (t ∉ ["DOMAIN"; "DOMAIN-SUFFIX"; "DOMAIN-KEYWORD"; "DOMAIN-WILDCARD";
          "DOMAIN-REGEX"] → BuildClients.qx_type_of t = t)
  ∧ BuildClients.qx_line "DOMAIN-SUFFIX,x.com,no-resolve"
    = "HOST-SUFFIX,x.com,OverseasAI".
Proof.
  intros Ht Hv Hmods.
  assert (Py.split "," (Py.join "," (t :: v :: mods)) = t :: v :: mods) as Hsplit.
  { apply (split_join ","). by repeat constructor. }
  assert (BuildClients.qx_line (Py.join "," (t :: v :: mods))
          = BuildClients.qx_type_of t +:+ "," +:+ v +:+ ",OverseasAI") as Hline.
  { unfold BuildClients.qx_line, BuildClients.qx_transform.
    rewrite Hsplit. reflexivity. }
  split; [by rewrite Hline|].
  split.
  { rewrite Hline. apply qx_line_fields; [by apply qx_type_of_free|done]. }
  do 5 (split; [reflexivity|]).
  split; [|reflexivity].
  intros Hnot. unfold BuildClients.qx_type_of.
  repeat match goal with
  | |- context [String.eqb t ?k] =>
      destruct (String.eqb_spec t k) as [->|_];
      [exfalso; apply Hnot; set_solver|]
  end.
  reflexivity.
Qed.

Lemma remap_transform_correct_witness :
  BuildClients.qx_line (Py.join "," ["IP-CIDR"; "1.2.3.4/32"; "no-resolve"])
  = Py.join "," ["IP-CIDR"; "1.2.3.4/32"; GROUP].
Proof.
  refine (proj1 (remap_transform_correct "IP-CIDR" "1.2.3.4/32" ["no-resolve"]
                   _ _ _)).
  - reflexivity.
  - reflexivity.
  - repeat constructor.
Defined.

Lemma qx_type_of_remap (t : string) : BuildClients.qx_type_of t = remap_type t.
Proof.
  unfold BuildClients.qx_type_of, remap_type.
  repeat match goal with
  | |- context [String.eqb t ?k] =>
      destruct (String.eqb_spec t k) as [->|?]; [reflexivity|]
  end.
  rewrite (not_elem_of_list_to_map_1 (M := gmap string) REMAP t); [done|].
  unfold REMAP. simpl. rewrite !not_elem_of_cons.
  repeat (split; [done|]). apply not_elem_of_nil.
Qed.

Lemma value_of_nth (parts : list string) :
  BuildClients.value_of parts = nth 1 parts "".
Proof. by destruct parts as [|t [|v fs]]. Qed.

(** C10. Whatever modifiers a rule carries, the line of the remapped
    dialect has exactly three comma-separated fields: the remapped type of
    its first field, its second field, and the group label. So a rule
    with type [t], value [v] and any modifiers gives [T,v,OverseasAI], all
    its modifiers dropped, and a rule without a comma, which has no value
    field, gives [T,,OverseasAI], its value field empty. *)
Theorem remap_line_three_fields (rule : string) :
  Py.split "," (BuildClients.qx_line rule)
    = [ remap_type (hd "" (Py.split "," rule));
        nth 1 (Py.split "," rule) "";
        "OverseasAI" ]
  ∧ length (Py.split "," (BuildClients.qx_line rule)) = 3%nat
  ∧ (∀ t v mods,
       comma_free t → comma_free v → Forall comma_free mods →
       rule = Py.join "," (t :: v :: mods) →
       BuildClients.qx_line rule = remap_type t +:+ "," +:+ v +:+ ",OverseasAI"
       ∧ Py.split "," (BuildClients.qx_line rule)
         = [remap_type t; v; "OverseasAI"])
  ∧ (comma_free rule →
     BuildClients.qx_line rule = remap_type rule +:+ ",,OverseasAI"
     ∧ Py.split "," (BuildClients.qx_line rule)
       = [remap_type rule; ""; "OverseasAI"]).
Proof.
  assert (Py.split "," (BuildClients.qx_line rule)
          = [ remap_type (hd "" (Py.split "," rule));
              nth 1 (Py.split "," rule) ""; "OverseasAI" ]) as Hfields.
  { rewrite <-qx_type_of_remap, <-value_of_nth.
    unfold BuildClients.qx_line, BuildClients.qx_transform. simpl snd.
    apply qx_line_fields.
    - apply qx_type_of_free, split_hd_free.
    - apply value_of_free. }
  split; [done|]. split; [by rewrite Hfields|]. split.
  - intros t v mods Ht Hv Hmods ->.
    assert (Py.split "," (Py.join "," (t :: v :: mods)) = t :: v :: mods)
      as Hsplit by (apply (split_join ","); by repeat constructor).
    split.
    + unfold BuildClients.qx_line, BuildClients.qx_transform.
      rewrite Hsplit, <-qx_type_of_remap. reflexivity.
    + rewrite Hfields, Hsplit. reflexivity.
  - intros Hfree.
    pose proof (split_free "," rule Hfree) as Hsplit. split.
    + unfold BuildClients.qx_line, BuildClients.qx_transform.
      rewrite Hsplit, <-qx_type_of_remap. reflexivity.
    + rewrite Hfields, Hsplit. reflexivity.
Qed.

Lemma remap_line_three_fields_witness :
  (BuildClients.qx_line
     "DOMAIN-SUFFIX,x.com,no-resolve,extended-matching,pre-matching"
   = "HOST-SUFFIX,x.com,OverseasAI"
   ∧ Py.split ","
       (BuildClients.qx_line
          "DOMAIN-SUFFIX,x.com,no-resolve,extended-matching,pre-matching")
     = ["HOST-SUFFIX"; "x.com"; "OverseasAI"])
  ∧ (BuildClients.qx_line "USER-AGENT" = "USER-AGENT,,OverseasAI"
     ∧ Py.split "," (BuildClients.qx_line "USER-AGENT")
       = ["USER-AGENT"; ""; "OverseasAI"]).
Proof.
  split.
  - refine (proj1 (proj2 (proj2 (remap_line_three_fields
              "DOMAIN-SUFFIX,x.com,no-resolve,extended-matching,pre-matching")))
              "DOMAIN-SUFFIX" "x.com"
              ["no-resolve"; "extended-matching"; "pre-matching"] _ _ _ _).
    + reflexivity.
    + reflexivity.
    + repeat constructor.
    + reflexivity.
  - refine (proj2 (proj2 (proj2 (remap_line_three_fields "USER-AGENT"))) _).
    reflexivity.
Defined.

(** ** The liveness checker (check_domains.py) *)

Section check_domain.
Import CheckDomains.
Variable dns : DNS.
Variable domain : string.

Lemma query_kinds_qtypes (resolver_ip : string) (st : Flags) :
  query_kinds dns resolver_ip domain QTYPES st
  = ({| ok := ok st
              || existsb is_answered
                   (attempt_kind <$> attempts_on dns domain resolver_ip);
        unknown := unknown st;
        attempts := attempts st ++ attempts_on dns domain resolver_ip |},
     existsb is_failed (attempt_kind <$> attempts_on dns domain resolver_ip)).
Proof.
  destruct st as [o u l]. unfold attempts_on, attempt_kind. simpl.
  destruct (dns resolver_ip domain "A") as [[]| | | | |];
    try destruct (dns resolver_ip domain "AAAA") as [[]| | | | |];
    unfold set_ok, record_attempt; simpl;
    rewrite ?orb_false_r, ?orb_true_r, <-?app_assoc; reflexivity.
Qed.

Lemma query_resolvers_spec (resolvers : list string) (st : Flags) :
  query_resolvers dns domain resolvers st
  = {| ok := ok st
             || existsb is_answered
                  (attempt_kind <$> (resolvers ≫= attempts_on dns domain));
       unknown := unknown st
             || existsb is_failed
                  (attempt_kind <$> (resolvers ≫= attempts_on dns domain));
       attempts := attempts st ++ (resolvers ≫= attempts_on dns domain) |}.
Proof.
  revert st. induction resolvers as [|r rs IH]; intros st.
  - destruct st. simpl. by rewrite !orb_false_r, app_nil_r.
  - cbn [query_resolvers]. rewrite query_kinds_qtypes.
    rewrite bind_cons, fmap_app, !existsb_app.
    generalize (attempts_on dns domain r). intros new.
    destruct (existsb is_failed (attempt_kind <$> new));
      rewrite IH; unfold set_unknown; cbn [ok unknown attempts];
      rewrite ?orb_assoc, ?app_assoc, ?orb_false_r, ?orb_true_r;
      reflexivity.
Qed.

Lemma check_domain_run_spec :
  check_domain_run dns domain
  = (aggregate (attempt_kind <$> (RESOLVERS ≫= attempts_on dns domain)),
     RESOLVERS ≫= attempts_on dns domain).
Proof.
  unfold check_domain_run. rewrite query_resolvers_spec.
  unfold status_of, aggregate. reflexivity.
Qed.
End check_domain.

Lemma aggregate_nxdomain (kinds : list AttemptKind) :
  aggregate kinds = CheckDomains.NXDOMAIN →
  Forall (λ k, k = NameDoesNotExist) kinds.
Proof.
  unfold aggregate.
  destruct (existsb is_answered kinds) eqn:Ha; [done|].
  destruct (existsb is_failed kinds) eqn:Hf; [done|]. intros _.
  apply Forall_forall. intros k Hk. apply list_elem_of_In in Hk.
  destruct k; try done.
  - assert (existsb is_answered kinds = true) by (apply existsb_exists; eauto).
    congruence.
  - assert (existsb is_answered kinds = true) by (apply existsb_exists; eauto).
    congruence.
  - assert (existsb is_failed kinds = true) by (apply existsb_exists; eauto).
    congruence.
Qed.

Lemma attempts_on_all (dns : CheckDomains.DNS) (domain resolver_ip : string) :
  is_failed (kind_of (dns resolver_ip domain "A")) = false →
  attempt_kind <$> attempts_on dns domain resolver_ip
  = [ kind_of (dns resolver_ip domain "A");
      kind_of (dns resolver_ip domain "AAAA") ].
Proof. intros Hfirst. unfold attempts_on. by rewrite Hfirst. Qed.

(** C8 (amended). The status of a domain is the aggregate of the attempts
    made for it: OK when some attempt was answered, with data or without;
    otherwise UNKNOWN when some attempt failed; otherwise NXDOMAIN, and
    then every attempt said that the name does not exist. The attempts
    made are, for each resolver in turn, the address query and, unless that
    one failed, the v6 query: a resolver whose address query fails is not
    asked the v6 query. When the address query fails on no resolver, every
    resolver is asked for both record kinds and the status is the
    aggregate of all the outcomes. *)
Theorem check_domain_classification (dns : CheckDomains.DNS) (domain : string) :
  let log := snd (CheckDomains.check_domain_run dns domain) in
  CheckDomains.check_domain dns domain = aggregate (attempt_kind <$> log)
  ∧ log = CheckDomains.RESOLVERS ≫= attempts_on dns domain
  ∧ (CheckDomains.check_domain dns domain = CheckDomains.NXDOMAIN →
     Forall (λ a, attempt_kind a = NameDoesNotExist) log)
  ∧ ((∀ resolver_ip, resolver_ip ∈ CheckDomains.RESOLVERS →
        is_failed (kind_of (dns resolver_ip domain "A")) = false) →
     attempt_kind <$> log = all_outcomes dns domain
     ∧ classifies_all_outcomes dns domain).
Proof.
  unfold classifies_all_outcomes, CheckDomains.check_domain.
  rewrite check_domain_run_spec.
  cbv zeta. cbn [fst snd].
  split; [done|]. split; [done|]. split.
  - generalize (CheckDomains.RESOLVERS ≫= attempts_on dns domain). intros log.
    intros Hnx%aggregate_nxdomain. by apply Forall_fmap in Hnx.
  - intros Hfirst.
    assert (attempt_kind <$> (CheckDomains.RESOLVERS ≫= attempts_on dns domain)
            = all_outcomes dns domain) as Hall.
    { unfold all_outcomes. revert Hfirst.
      generalize CheckDomains.RESOLVERS. intros resolvers Hfirst.
      induction resolvers as [|r rs IH]; [done|].
      rewrite !bind_cons, fmap_app, attempts_on_all
        by (apply Hfirst, list_elem_of_here).
      rewrite IH by (intros; by apply Hfirst, list_elem_of_further).
      reflexivity. }
    by rewrite Hall.
Qed.

Lemma check_domain_classification_witness :
  Forall (λ a, attempt_kind a = NameDoesNotExist)
    (snd (CheckDomains.check_domain_run
            (λ _ _ _, CheckDomains.RaiseNXDOMAIN) "gone.example")).
Proof.
  refine (proj1 (proj2 (proj2 (check_domain_classification
                                 (λ _ _ _, CheckDomains.RaiseNXDOMAIN)
                                 "gone.example"))) _).
  reflexivity.
Defined.

(** C8, as stated, fails: the first resolver times out on the address
    query and would answer the v6 query with data, the second knows no
    name. One of the four outcomes is an answer, so the aggregate of the
    outcomes is OK; the script does not ask the first resolver the v6
    query, and its status is UNKNOWN. *)
Lemma unasked_query_not_aggregated :
  ¬ classifies_all_outcomes example_flaky_dns "x.example".
Proof. unfold classifies_all_outcomes. vm_compute. discriminate. Qed.

(** The outcomes of that example, their aggregate, and the status the
    script gives. *)
Example flaky_resolver_outcomes :
  all_outcomes example_flaky_dns "x.example"
  = [ResolutionFailed; AnsweredWithData; NameDoesNotExist; NameDoesNotExist]
  ∧ aggregate (all_outcomes example_flaky_dns "x.example") = CheckDomains.OK
  ∧ CheckDomains.check_domain example_flaky_dns "x.example"
    = CheckDomains.UNKNOWN.
Proof. by repeat split. Qed.

(** ** Sorting *)

Section sorted_facts.
Context {A K : Type} (key : A → K) (lt : K → K → bool).

Lemma sorted_cons (x : A) (l : list A) :
  Py.sorted key lt (x :: l) = Py.insort key lt x (Py.sorted key lt l).
Proof. reflexivity. Qed.

Lemma insort_perm (x : A) (l : list A) : Py.insort key lt x l ≡ₚ x :: l.
Proof.
  induction l as [|y l IH]; simpl; [done|].
  destruct (lt (key y) (key x)); [|done].
  rewrite IH. apply perm_swap.
Qed.

Lemma sorted_perm (l : list A) : Py.sorted key lt l ≡ₚ l.
Proof.
  induction l as [|x l IH]; [done|].
  rewrite sorted_cons, insort_perm. by f_equiv.
Qed.

Lemma elem_of_sorted (x : A) (l : list A) : x ∈ Py.sorted key lt l ↔ x ∈ l.
Proof. by rewrite sorted_perm. Qed.
End sorted_facts.

Section sorted_set_facts.
Context `{Py.Runtime}.

Lemma elem_of_set_iter (x : string) (s : gset string) :
  x ∈ Py.set_iter s ↔ x ∈ s.
Proof. by rewrite Py.set_iter_perm, elem_of_elements. Qed.

Lemma elem_of_sorted_set (x : string) (l : list string) :
  x ∈ CheckDomains.sorted_set l ↔ x ∈ l.
Proof.
  unfold CheckDomains.sorted_set.
  by rewrite elem_of_sorted, elem_of_set_iter, elem_of_list_to_set.
Qed.

Lemma NoDup_sorted_set (l : list string) : NoDup (CheckDomains.sorted_set l).
Proof.
  unfold CheckDomains.sorted_set.
  rewrite sorted_perm, Py.set_iter_perm. apply NoDup_elements.
Qed.
End sorted_set_facts.

(** ** The staleness state machine (check_domains.py) *)

Section staleness.
Import CheckDomains.
Context `{Py.Runtime}.

Lemma advance_updated_state (state : gmap string LivenessRecord)
    (results : gmap string Status) (utcnow : string → string)
    (acc : Loop) (d : string) :
  updated_state (advance state results utcnow acc d)
  = <[d := stored_record state results utcnow d]> (updated_state acc).
Proof.
  unfold advance, stored_record, prior_count, next_count. cbn [updated_state].
  by destruct (default UNKNOWN (results !! d)).
Qed.

Lemma advance_candidates (state : gmap string LivenessRecord)
    (results : gmap string Status) (utcnow : string → string)
    (acc : Loop) (d : string) :
  candidates (advance state results utcnow acc d)
  = if THRESHOLD <=? count (stored_record state results utcnow d)
    then candidates acc ++ [d]
    else candidates acc.
Proof.
  unfold advance, stored_record, prior_count, next_count.
  cbn [candidates count].
  by destruct (default UNKNOWN (results !! d)).
Qed.

Lemma fold_advance_updated_state (state : gmap string LivenessRecord)
    (results : gmap string Status) (utcnow : string → string)
    (domains : list string) (acc : Loop) (d : string) :
  updated_state (fold_left (advance state results utcnow) domains acc) !! d
  = if decide (d ∈ domains) then Some (stored_record state results utcnow d)
    else updated_state acc !! d.
Proof.
  revert acc. induction domains as [|x l IH]; intros acc.
  - rewrite decide_False; [done|]. apply not_elem_of_nil.
  - cbn [fold_left]. rewrite IH, advance_updated_state.
    destruct (decide (d ∈ l)) as [Hin|Hnin].
    + rewrite decide_True; [done|]. by right.
    + destruct (decide (d = x)) as [->|Hne].
      * rewrite lookup_insert_eq. rewrite decide_True; [done|]. by left.
      * rewrite lookup_insert_ne by done.
        rewrite decide_False; [done|]. rewrite elem_of_cons. tauto.
Qed.

Lemma fold_advance_candidates (state : gmap string LivenessRecord)
    (results : gmap string Status) (utcnow : string → string)
    (domains : list string) (acc : Loop) (d : string) :
  d ∈ candidates (fold_left (advance state results utcnow) domains acc)
  ↔ d ∈ candidates acc
    ∨ (d ∈ domains
       ∧ THRESHOLD ≤ count (stored_record state results utcnow d)).
Proof.
  revert acc. induction domains as [|x l IH]; intros acc.
  - cbn [fold_left]. split; [tauto|].
    intros [?|[Hd _]]; [done|]. by apply not_elem_of_nil in Hd.
  - cbn [fold_left]. rewrite IH, advance_candidates, elem_of_cons.
    destruct (Z.leb_spec THRESHOLD
                (count (stored_record state results utcnow x))) as [Hle|Hlt].
    + rewrite elem_of_app, list_elem_of_singleton.
      split.
      * intros [[?| ->]|[? ?]]; eauto.
      * intros [?|[[->|?] ?]]; eauto.
    + split.
      * intros [?|[? ?]]; eauto.
      * intros [?|[[->|?] ?]]; eauto. lia.
Qed.

Lemma collect_lookup (dns : DNS) (domains : list string) (d : string) :
  collect dns domains !! d
  = if decide (d ∈ domains) then Some (check_domain dns d) else None.
Proof.
  unfold collect. induction domains as [|x l IH].
  - rewrite decide_False; [done|]. apply not_elem_of_nil.
  - rewrite fmap_cons, list_to_map_cons.
    destruct (decide (d = x)) as [->|Hne].
    + rewrite lookup_insert_eq. rewrite decide_True; [done|]. by left.
    + rewrite lookup_insert_ne by done. rewrite IH.
      destruct (decide (d ∈ l)) as [Hin|Hnin].
      * rewrite decide_True; [done|]. by right.
      * rewrite decide_False; [done|]. rewrite elem_of_cons. tauto.
Qed.

Lemma written_state_lookup (env : Env) (dns : DNS) (rules_text : string)
    (state_file : option (gmap string LivenessRecord)) (d : string) :
  written_state env dns rules_text state_file !! d
  = if decide (d ∈ iter_domains (parse_rules rules_text))
    then Some (stored_record (default ∅ state_file)
                 (collect dns (iter_domains (parse_rules rules_text)))
                 (utcnow env) d)
    else None.
Proof.
  unfold written_state, run, run_loop.
  rewrite fold_advance_updated_state. by case_decide.
Qed.

(** C2. For a domain of the rule corpus with prior count [c >= 0] and
    status [s] in the current run, the record written for it has count 0
    when [s] is OK, [c + 1] when [s] is NXDOMAIN and [c] when [s] is
    UNKNOWN; its last status is [s] and its time stamp is that of the run,
    whatever [s] is; the count stays non-negative; and the domain is
    reported as a removal candidate exactly when the new count is at least
    the threshold, 3. *)
Theorem staleness_update (env : Env) (dns : DNS) (rules_text : string)
    (state_file : option (gmap string LivenessRecord)) (d : string) (c : Z) :
  d ∈ iter_domains (parse_rules rules_text) →
  prior_count (default ∅ state_file) d = c →
  0 ≤ c →
  let s := check_domain dns d in
  let c' := match s with OK => 0 | NXDOMAIN => c + 1 | UNKNOWN => c end in
  written_state env dns rules_text state_file !! d
  = Some {| count := c'; last_status := s; last_checked := utcnow env d |}
  ∧ 0 ≤ c'
  ∧ THRESHOLD = 3
  ∧ (d ∈ reported_candidates env dns rules_text state_file ↔ THRESHOLD ≤ c').
Proof.
  intros Hd Hc Hpos s c'.
  assert (stored_record (default ∅ state_file)
            (collect dns (iter_domains (parse_rules rules_text)))
            (utcnow env) d
          = {| count := c'; last_status := s; last_checked := utcnow env d |})
    as Hrec.
  { unfold stored_record. rewrite collect_lookup, decide_True by done.
    cbn [default]. rewrite Hc. reflexivity. }
  split.
  { rewrite written_state_lookup, decide_True by done. by rewrite Hrec. }
  split.
  { subst c'. destruct s; lia. }
  split; [reflexivity|].
  unfold reported_candidates. rewrite elem_of_sorted_set.
  unfold run, run_loop. rewrite fold_advance_candidates, Hrec.
  cbn [candidates count]. split.
  - intros [Hnil|[_ Hle]]; [|done]. by apply not_elem_of_nil in Hnil.
  - intros Hle. right. done.
Qed.

(** C1 (amended). The state written at the end of a run holds a record for
    the domains of the current rule corpus and for no other domain: a
    domain of the prior state that is absent from the corpus has no record
    in the written state. *)
Theorem absent_domain_dropped (env : Env) (dns : DNS) (rules_text : string)
    (state_file : option (gmap string LivenessRecord)) (d : string) :
  d ∉ iter_domains (parse_rules rules_text) →
  written_state env dns rules_text state_file !! d = None
  ∧ In (WriteState (repo_root env // "data" // "nxdomain_state.json")
                   (written_state env dns rules_text state_file))
       (main env dns rules_text state_file)
  ∧ (∀ d', is_Some (written_state env dns rules_text state_file !! d')
           ↔ d' ∈ iter_domains (parse_rules rules_text)).
Proof.
  intros Hd. split.
  { rewrite written_state_lookup. by rewrite decide_False. }
  split.
  { unfold main. cbn [In]. tauto. }
  intros d'. rewrite written_state_lookup. case_decide.
  - split; [done|]. intros _. by eexists.
  - split; [|done]. by intros [? ?].
Qed.

End staleness.

Lemma staleness_update_witness :
  "gone.example"
  ∈ CheckDomains.reported_candidates example_env example_dns
      "DOMAIN,gone.example" (Some example_state).
Proof.
  refine (proj2 (proj2 (proj2 (proj2
            (staleness_update example_env example_dns "DOMAIN,gone.example"
               (Some example_state) "gone.example" 2 _ _ _)))) _).
  - vm_compute. apply list_elem_of_here.
  - reflexivity.
  - lia.
  - by vm_compute.
Defined.

Lemma absent_domain_dropped_witness :
  CheckDomains.written_state example_env example_dns "DOMAIN,kept.example"
    (Some example_state) !! "gone.example" = None.
Proof.
  refine (proj1 (absent_domain_dropped example_env example_dns
                   "DOMAIN,kept.example" (Some example_state)
                   "gone.example" _)).
  vm_compute. intros Hin. apply list_elem_of_In in Hin.
  destruct Hin as [Heq|[]]. discriminate Heq.
Defined.

(** C1, as stated, fails: the record of [gone.example], which is in the
    prior state and not in the rule corpus, is not in the written state. *)
Lemma absent_record_not_kept :
  ¬ keeps_absent_records example_env example_dns "DOMAIN,kept.example"
      (Some example_state).
Proof.
  intros Hkeeps.
  specialize (Hkeeps "gone.example"
                {| CheckDomains.count := 2;
                   CheckDomains.last_status := CheckDomains.NXDOMAIN;
                   CheckDomains.last_checked := "2024-04-30T00:00:00Z" |}).
  rewrite written_state_lookup in Hkeeps.
  assert ("gone.example"
          ∉ CheckDomains.iter_domains
              (CheckDomains.parse_rules "DOMAIN,kept.example")) as Hnot.
  { vm_compute. intros Hin. apply list_elem_of_In in Hin.
    destruct Hin as [Heq|[]]. discriminate Heq. }
  rewrite decide_False in Hkeeps by exact Hnot.
  discriminate Hkeeps; [reflexivity|exact Hnot].
Qed.

(** ** Paths *)

Lemma prefix_app (p s : string) : String.prefix p (p +:+ s) = true.
Proof.
  induction p as [|c p IH]; [by destruct s|].
  rewrite app_cons. simpl. by destruct (ascii_dec c c).
Qed.

Lemma rev_app_app (a b acc : string) :
  String.rev_app (a +:+ b) acc = String.rev_app b (String.rev_app a acc).
Proof.
  revert acc. induction a as [|c a IH]; intros acc; [done|].
  rewrite app_cons. simpl. by rewrite IH.
Qed.

Lemma rev_app_acc (s acc : string) :
  String.rev_app s acc = String.rev_app s "" +:+ acc.
Proof.
  revert acc. induction s as [|c s IH]; intros acc; [done|].
  simpl. rewrite (IH (String c acc)), (IH (String c "")).
  by rewrite app_assoc_str.
Qed.

Lemma endswith_app (s suffix : string) : endswith (s +:+ suffix) suffix = true.
Proof.
  unfold endswith, String.rev.
  rewrite rev_app_app, (rev_app_acc suffix (String.rev_app s "")).
  apply prefix_app.
Qed.

Lemma startswith_path_join (dir name : string) :
  Py.startswith (dir // name) (dir +:+ "/") = true.
Proof.
  unfold Py.startswith, path_join.
  replace (dir +:+ "/" +:+ name) with ((dir +:+ "/") +:+ name)
    by apply app_assoc_str.
  apply prefix_app.
Qed.

Lemma startswith_app (s p t : string) :
  Py.startswith s p = true → Py.startswith (s +:+ t) p = true.
Proof.
  unfold Py.startswith. revert s.
  induction p as [|c p IH]; intros s; [by destruct (s +:+ t)|].
  destruct s as [|c' s]; [done|]. rewrite app_cons. simpl.
  destruct (ascii_dec c c'); [apply IH|done].
Qed.

Lemma core_path_in_rglob (fs : FS) (args : SyncRules.Args) (name text : string) :
  fs !! SyncRules.core_path args name = Some text →
  SyncRules.core_path args name ∈ rglob_list fs (SyncRules.surge_dir args).
Proof.
  intros Hfile. unfold rglob_list. apply list_elem_of_In, filter_In. split.
  - apply list_elem_of_In, list_elem_of_fmap.
    exists (SyncRules.core_path args name, text). split; [done|].
    by apply elem_of_map_to_list.
  - apply andb_true_intro. split.
    + unfold SyncRules.core_path. unfold path_join at 1.
      apply startswith_app, startswith_path_join.
    + unfold SyncRules.core_path. unfold path_join at 1.
      replace (SyncRules.surge_dir args // name +:+ "/" +:+ name +:+ ".list")
        with ((SyncRules.surge_dir args // name +:+ "/" +:+ name) +:+ ".list").
      * apply endswith_app.
      * by rewrite !app_assoc_str.
Qed.

(** ** The corpus merger (sync_rules.py) *)

Section merge.
Import SyncRules.
Context `{Py.Runtime}.

Lemma load_core_missing (fs : FS) (args : Args) (names : list string)
    (acc : gset string) (name : string) :
  name ∈ names → fs !! core_path args name = None →
  ∃ missing,
    missing ∈ names ∧ fs !! core_path args missing = None
    ∧ load_core fs args names acc
      = inl ("Missing upstream list: " +:+ core_path args missing).
Proof.
  revert acc. induction names as [|x names IH]; intros acc Hin Hnone.
  - by apply not_elem_of_nil in Hin.
  - cbn [load_core]. destruct (fs !! core_path args x) as [text|] eqn:Hx.
    + apply elem_of_cons in Hin as [->|Hin]; [congruence|].
      destruct (IH (acc ∪ list_to_set (parse_rules text)) Hin Hnone)
        as (missing & ? & ? & ?).
      exists missing. split; [by right|done].
    + exists x. split; [by left|done].
Qed.

Lemma load_core_elem_of (fs : FS) (args : Args) (names : list string)
    (acc core : gset string) (line : string) :
  load_core fs args names acc = inr core → line ∈ core →
  line ∈ acc
  ∨ ∃ name text, name ∈ names ∧ fs !! core_path args name = Some text
                 ∧ line ∈ parse_rules text.
Proof.
  revert acc. induction names as [|x names IH]; intros acc Hload Hline.
  - cbn [load_core] in Hload. left. congruence.
  - cbn [load_core] in Hload.
    destruct (fs !! core_path args x) as [text|] eqn:Hx; [|done].
    destruct (IH _ Hload Hline) as [Hacc|(name & text' & ? & ? & ?)].
    + apply elem_of_union in Hacc as [?|Hnew]; [by left|].
      right. exists x, text. split; [by left|].
      split; [done|]. by apply elem_of_list_to_set in Hnew.
    + right. exists name, text'. split; [by right|done].
Qed.

Lemma elem_of_upstream_lines (fs : FS) (args : Args) (line : string) :
  line ∈ upstream_lines fs args
  ↔ ∃ path, path ∈ rglob_list fs (surge_dir args)
            ∧ line ∈ parse_rules (read_text fs path).
Proof.
  unfold upstream_lines. rewrite elem_of_list_to_set, list_elem_of_bind.
  split; intros (path & ? & ?); by exists path.
Qed.

(** Every core list is one of the upstream lists. *)
Lemma core_subseteq_upstream (fs : FS) (args : Args) (core : gset string) :
  load_core fs args CORE_SOURCES ∅ = inr core →
  core ⊆ upstream_lines fs args.
Proof.
  intros Hload line Hline.
  destruct (load_core_elem_of _ _ _ _ _ _ Hload Hline)
    as [Hempty|(name & text & _ & Hfile & Hparsed)].
  - by apply not_elem_of_empty in Hempty.
  - apply elem_of_upstream_lines. exists (core_path args name).
    split; [by eapply core_path_in_rglob|].
    unfold read_text. by rewrite Hfile.
Qed.

(** C9. When the list of one of the core sources is absent, the merge
    stops with a message that names the path of an absent core list,
    and the run has written nothing: its only effect is the creation of
    the output directory. *)
Theorem missing_core_source_aborts (fs : FS) (args : Args) (env : Env)
    (name : string) :
  name ∈ CORE_SOURCES → fs !! core_path args name = None →
  ∃ missing,
    missing ∈ CORE_SOURCES
    ∧ fs !! core_path args missing = None
    ∧ main fs args env
      = ([Mkdir (rules_dir env)],
         SystemExit ("Missing upstream list: " +:+ core_path args missing))
    ∧ ∀ path text, ¬ In (WriteText path text) (fst (main fs args env)).
Proof.
  intros Hin Hnone.
  destruct (load_core_missing fs args CORE_SOURCES ∅ name Hin Hnone)
    as (missing & Hmissing & Habsent & Hload).
  exists missing. unfold main. rewrite Hload.
  do 3 (split; [done|]).
  intros path text [Heq|[]]. discriminate Heq.
Qed.

(** C4 (amended). In a run whose core sources are all present, a
    candidate of the extra file that is in no upstream list is not
    admitted as an extra rule and is in no core list; it is in the merged
    set, and so in the merged artifact, exactly when the custom list has
    it; and it is a line of the missing report the run writes. *)
Theorem unverified_extra_reported (fs : FS) (args : Args) (env : Env)
    (core : gset string) (line : string) :
  load_core fs args CORE_SOURCES ∅ = inr core →
  line ∈ extra_candidates fs env →
  line ∉ upstream_lines fs args →
  (line ∉ upstream_extra_rules fs args env)
  ∧ (line ∉ core)
  ∧ (line ∈ merged_rules fs args env core ↔ line ∈ custom_rules fs env)
  ∧ (line ∈ sorted_rules (Py.set_iter (merged_rules fs args env core))
     ↔ line ∈ custom_rules fs env)
  ∧ line ∈ sorted_rules (missing_extra fs args env)
  ∧ In (WriteText (upstream_missing_path env)
                  (Py.join nl (sorted_rules (missing_extra fs args env))
                   +:+ nl))
       (fst (main fs args env))
  ∧ ∃ header,
      In (WriteText (main_path env)
                    (artifact header
                       (sorted_rules
                          (Py.set_iter (merged_rules fs args env core)))))
         (fst (main fs args env)).
Proof.
  intros Hload Hcand Hnot.
  assert (line ∉ upstream_extra_rules fs args env) as Hextra.
  { unfold upstream_extra_rules.
    rewrite elem_of_list_to_set, list_elem_of_In, filter_In.
    intros [_ Hdec]. by apply bool_decide_eq_true in Hdec. }
  assert (line ∉ core) as Hcore.
  { intros Hline. by apply Hnot, (core_subseteq_upstream fs args core). }
  assert (line ∈ missing_extra fs args env) as Hmissing.
  { unfold missing_extra. apply list_elem_of_In, filter_In.
    split; [by apply list_elem_of_In|].
    apply negb_true_iff. by apply bool_decide_eq_false. }
  assert (line ∈ merged_rules fs args env core ↔ line ∈ custom_rules fs env)
    as Hmerged.
  { unfold merged_rules. rewrite !elem_of_union. tauto. }
  split; [done|]. split; [done|]. split; [done|].
  split. { unfold sorted_rules. by rewrite elem_of_sorted, elem_of_set_iter. }
  split. { unfold sorted_rules. by rewrite elem_of_sorted. }
  unfold main. rewrite Hload. cbn [fst]. unfold write_artifacts. split.
  - right. apply in_or_app. right. apply in_or_app. right. left.
    unfold missing_report.
    destruct (missing_extra fs args env); [|done].
    by apply not_elem_of_nil in Hmissing.
  - eexists. right. left. reflexivity.
Qed.
End merge.

Lemma example_load_core :
  SyncRules.load_core example_fs example_args SyncRules.CORE_SOURCES ∅
  = inr example_core.
Proof.
  vm_cast_no_check (eq_refl (inr example_core : string + gset string)).
Qed.

Lemma example_candidate :
  "DOMAIN,extra.example"
  ∈ SyncRules.extra_candidates example_fs example_sync_env.
Proof. vm_compute. apply list_elem_of_here. Qed.

Lemma example_not_upstream :
  "DOMAIN,extra.example" ∉ SyncRules.upstream_lines example_fs example_args.
Proof. apply (bool_decide_unpack _). vm_compute. exact I. Qed.

Lemma missing_core_source_aborts_witness :
  ∃ missing,
    missing ∈ SyncRules.CORE_SOURCES
    ∧ (∅ : FS) !! SyncRules.core_path example_args missing = None
    ∧ SyncRules.main ∅ example_args example_sync_env
      = ([Mkdir (SyncRules.rules_dir example_sync_env)],
         SystemExit ("Missing upstream list: "
                     +:+ SyncRules.core_path example_args missing))
    ∧ ∀ path text,
        ¬ In (WriteText path text)
             (fst (SyncRules.main ∅ example_args example_sync_env)).
Proof.
  apply (missing_core_source_aborts ∅ example_args example_sync_env "OpenAI").
  - apply list_elem_of_here.
  - reflexivity.
Defined.

Lemma unverified_extra_reported_witness :
  "DOMAIN,extra.example"
  ∈ SyncRules.sorted_rules
      (SyncRules.missing_extra example_fs example_args example_sync_env).
Proof.
  refine (proj1 (proj2 (proj2 (proj2 (proj2
            (unverified_extra_reported example_fs example_args
               example_sync_env example_core "DOMAIN,extra.example"
               _ _ _)))))).
  - exact example_load_core.
  - exact example_candidate.
  - exact example_not_upstream.
Defined.

(** C4, as stated, fails: [DOMAIN,extra.example] is a candidate of the
    extra file that no upstream list has, and it is in the merged set,
    because the custom list has it. *)
Lemma unverified_extra_merged_through_custom :
  ¬ missing_extra_never_merged example_fs example_args example_sync_env.
Proof.
  intros Hclaim.
  destruct (Hclaim example_core "DOMAIN,extra.example" example_load_core
              example_candidate example_not_upstream) as [Hnot _].
  apply Hnot. apply (bool_decide_unpack _). vm_compute. exact I.
Qed.

(** ** The header builder *)

Lemma counter_sum_insert (c : gmap string Z) (k : string) (n : Z) :
  c !! k = None → Py.counter_sum (<[k := n]> c) = n + Py.counter_sum c.
Proof.
  intros Hk. unfold Py.counter_sum.
  rewrite map_fold_insert_L; [done| |done].
  intros. lia.
Qed.

Lemma counter_sum_delete (c : gmap string Z) (k : string) :
  Py.counter_sum c = Py.counter_item c k + Py.counter_sum (delete k c).
Proof.
  unfold Py.counter_item. destruct (c !! k) as [n|] eqn:Hk; simpl.
  - rewrite <-(insert_delete_id c k n Hk) at 1.
    apply counter_sum_insert, lookup_delete_eq.
  - by rewrite delete_id.
Qed.

Lemma counter_item_insert_ne (c : gmap string Z) (j k : string) (n : Z) :
  j ≠ k → Py.counter_item (<[k := n]> c) j = Py.counter_item c j.
Proof. intros Hne. unfold Py.counter_item. by rewrite lookup_insert_ne. Qed.

Lemma counter_item_delete_ne (c : gmap string Z) (j k : string) :
  j ≠ k → Py.counter_item (delete k c) j = Py.counter_item c j.
Proof. intros Hne. unfold Py.counter_item. by rewrite lookup_delete_ne. Qed.

Lemma counter_sum_zero (c : gmap string Z) :
  (∀ k, Py.counter_item c k = 0) → Py.counter_sum c = 0.
Proof.
  induction c as [|k n c Hk IH] using map_ind; intros Hzero; [done|].
  rewrite counter_sum_insert by done.
  pose proof (Hzero k) as Hn. unfold Py.counter_item in Hn.
  rewrite lookup_insert_eq in Hn. simpl in Hn. rewrite Hn.
  rewrite IH; [done|]. intros j.
  destruct (decide (j = k)) as [->|Hne].
  - unfold Py.counter_item. by rewrite Hk.
  - rewrite <-(Hzero j). symmetry. by apply counter_item_insert_ne.
Qed.

Lemma counter_sum_keys (keys : list string) (c : gmap string Z) :
  NoDup keys →
  (∀ k, k ∉ keys → Py.counter_item c k = 0) →
  Py.counter_sum c = foldr Z.add 0 (Py.counter_item c <$> keys).
Proof.
  revert c. induction keys as [|k keys IH]; intros c Hnodup Hzero.
  - apply counter_sum_zero. intros k. apply Hzero, not_elem_of_nil.
  - apply NoDup_cons in Hnodup as [Hk Hnodup].
    rewrite (counter_sum_delete c k), fmap_cons. simpl. f_equal.
    rewrite (IH (delete k c) Hnodup).
    + f_equal. apply list_fmap_ext. intros i j Hj.
      apply counter_item_delete_ne.
      intros ->. apply Hk. by eapply list_elem_of_lookup_2.
    + intros j Hj.
      destruct (decide (j = k)) as [->|Hne].
      * unfold Py.counter_item. by rewrite lookup_delete_eq.
      * rewrite counter_item_delete_ne by done. apply Hzero.
        rewrite elem_of_cons. tauto.
Qed.

Lemma emitted_keys_spec (keys : list string) (counts : gmap string Z)
    (k : string) :
  k ∈ SyncRules.emitted_keys keys counts
  ↔ k ∈ keys ∧ Py.counter_item counts k ≠ 0.
Proof.
  unfold SyncRules.emitted_keys.
  rewrite !list_elem_of_In, filter_In.
  unfold Py.counter_get_truthy, Py.counter_item.
  destruct (counts !! k) as [n|]; simpl.
  - destruct (Z.eqb_spec n 0); simpl; intuition congruence.
  - intuition congruence.
Qed.

Lemma truthy_nonzero (c : gmap string Z) (k : string) :
  Py.counter_get_truthy c k = negb (Py.counter_item c k =? 0).
Proof.
  unfold Py.counter_get_truthy, Py.counter_item.
  by destruct (c !! k).
Qed.

Lemma count_lines_emitted (counts : gmap string Z) :
  SyncRules.count_line counts
    <$> SyncRules.emitted_keys SyncRules.COUNT_KEYS counts
  = count_line_text <$> emitted_counts counts.
Proof.
  unfold emitted_counts, SyncRules.emitted_keys.
  rewrite <-list_fmap_compose.
  rewrite (List.filter_ext _ _ (truthy_nonzero counts)).
  reflexivity.
Qed.

Lemma sync_header_lines (name updated : string) (counts : gmap string Z) :
  SyncRules.build_header name updated counts
  = header_lines (sync_preamble_text name updated) (emitted_counts counts)
      (Py.counter_sum counts).
Proof.
  unfold SyncRules.build_header, header_lines.
  by rewrite count_lines_emitted.
Qed.

Lemma client_header_lines (name : string) (base_meta : list string)
    (counts : gmap string Z) :
  BuildClients.build_header name base_meta counts
  = header_lines (client_preamble_text name base_meta) (emitted_counts counts)
      (Py.counter_sum counts).
Proof.
  unfold BuildClients.build_header, header_lines, client_preamble_text.
  change (BuildClients.count_line counts
            <$> BuildClients.emitted_keys BuildClients.COUNT_KEYS counts)
    with (SyncRules.count_line counts
            <$> SyncRules.emitted_keys SyncRules.COUNT_KEYS counts).
  by rewrite count_lines_emitted.
Qed.

Lemma shown_sum_emitted (c : gmap string Z) :
  shown_sum (emitted_counts c)
  = foldr Z.add 0 (Py.counter_item c <$> TYPE_ENUMERATION).
Proof.
  unfold shown_sum, emitted_counts.
  induction TYPE_ENUMERATION as [|k keys IH]; [done|].
  rewrite fmap_cons. simpl. rewrite <-IH.
  destruct (Z.eqb_spec (Py.counter_item c k) 0) as [Hz|_]; simpl; [|done].
  by rewrite Hz.
Qed.

(** C5 (amended). A header is its first lines, then a count line [# k: n]
    for each type [k] of the enumeration whose count [n] is not zero, in
    the order of the enumeration, then the total line, which shows the sum
    of all the counts the builder was given, those of types outside the
    enumeration included. The total is the sum of the counts on the count
    lines whenever every type with a non-zero count is in the
    enumeration. *)
Theorem header_total_line (counts : gmap string Z) :
  (∀ name updated,
     SyncRules.build_header name updated counts
     = header_lines (sync_preamble_text name updated) (emitted_counts counts)
         (Py.counter_sum counts))
  ∧ (∀ name base_meta,
     BuildClients.build_header name base_meta counts
     = header_lines (client_preamble_text name base_meta)
         (emitted_counts counts) (Py.counter_sum counts))
  ∧ (map_Forall (λ k n, n ≠ 0 → k ∈ TYPE_ENUMERATION) counts →
     Py.counter_sum counts = shown_sum (emitted_counts counts)
     ∧ total_is_sum_of_count_lines counts).
Proof.
  split; [intros; apply sync_header_lines|].
  split; [intros; apply client_header_lines|].
  intros Hknown.
  assert (Py.counter_sum counts = shown_sum (emitted_counts counts)) as Hsum.
  { rewrite shown_sum_emitted. apply counter_sum_keys.
    - unfold TYPE_ENUMERATION. apply (bool_decide_unpack _). by vm_compute.
    - intros k Hk. unfold Py.counter_item.
      destruct (counts !! k) as [n|] eqn:Hn; [|done]. simpl.
      destruct (decide (n = 0)) as [|Hne]; [done|].
      exfalso. apply Hk. by apply (Hknown k n). }
  split; [done|]. split.
  - intros. by rewrite sync_header_lines, Hsum.
  - intros. by rewrite client_header_lines, Hsum.
Qed.

Lemma header_total_line_witness :
  Py.counter_sum example_known_counts
  = shown_sum (emitted_counts example_known_counts)
  ∧ total_is_sum_of_count_lines example_known_counts.
Proof.
  refine (proj2 (proj2 (header_total_line example_known_counts)) _).
  apply (bool_decide_unpack _). vm_compute. exact I.
Defined.

(** C5, as stated, fails: with two DOMAIN rules and one PROCESS-NAME rule
    the only count line is [# DOMAIN: 2] and the total line is
    [# TOTAL: 3]. *)
Lemma header_total_counts_unknown_types :
  ¬ total_is_sum_of_count_lines example_counts.
Proof.
  intros [Hsync _]. specialize (Hsync "OverseasAI" "2024-05-01 00:00:00").
  vm_compute in Hsync. discriminate Hsync.
Qed.

(** The header of that example, and the one the claim asks for. *)
Example header_of_unknown_type :
  SyncRules.build_header "OverseasAI" "2024-05-01 00:00:00" example_counts
  = sync_preamble_text "OverseasAI" "2024-05-01 00:00:00"
    ++ ["# DOMAIN: 2"; "# TOTAL: 3"]
  ∧ header_lines (sync_preamble_text "OverseasAI" "2024-05-01 00:00:00")
      (emitted_counts example_counts)
      (shown_sum (emitted_counts example_counts))
    = sync_preamble_text "OverseasAI" "2024-05-01 00:00:00"
      ++ ["# DOMAIN: 2"; "# TOTAL: 2"].
Proof. split; by vm_compute. Qed.

(** ** The resolve view (sync_rules.py) *)

Section resolve.
Context `{Py.Runtime}.

Lemma set_iter_singleton (x : string) : Py.set_iter {[x]} = [x].
Proof.
  apply Permutation_singleton_r.
  by rewrite Py.set_iter_perm, elements_singleton.
Qed.

Lemma resolve_rules_singleton (rule : string) :
  SyncRules.resolve_rules [rule] = [Py.replace ",no-resolve" "" rule].
Proof.
  unfold SyncRules.resolve_rules.
  rewrite list_fmap_singleton, list_to_set_singleton_L.
  by rewrite set_iter_singleton.
Qed.

Lemma resolve_view_singleton (rule : string) :
  resolve_view [rule] = [strip_modifier rule].
Proof.
  unfold resolve_view.
  rewrite list_fmap_singleton, list_to_set_singleton_L.
  by rewrite set_iter_singleton.
Qed.

(** C6. The resolve artifact is not the result of taking the
    do-not-resolve modifier out of every rule. The script deletes the
    text [,no-resolve] wherever it occurs, so the value of the rule
    DOMAIN-SUFFIX,no-resolve.example.com, which has no modifier, is cut
    and its comma is lost; and a value that is the word no-resolve is
    deleted. A rule that carries the modifier as its last field is
    handled as specified. *)
Theorem resolve_view_cuts_values :
  SyncRules.resolve_rules ["DOMAIN-SUFFIX,no-resolve.example.com"]
  = ["DOMAIN-SUFFIX.example.com"]
  ∧ resolve_view ["DOMAIN-SUFFIX,no-resolve.example.com"]
    = ["DOMAIN-SUFFIX,no-resolve.example.com"]
  ∧ SyncRules.resolve_rules ["DOMAIN-KEYWORD,no-resolve"]
    = ["DOMAIN-KEYWORD"]
  ∧ resolve_view ["DOMAIN-KEYWORD,no-resolve"]
    = ["DOMAIN-KEYWORD,no-resolve"]
  ∧ SyncRules.resolve_rules ["IP-CIDR,1.2.3.4/32,no-resolve"]
    = resolve_view ["IP-CIDR,1.2.3.4/32,no-resolve"].
Proof.
  rewrite !resolve_rules_singleton, !resolve_view_singleton.
  repeat split; reflexivity.
Qed.
End resolve.

(** ** Canonical ordering *)

(** C3. Canonical sorting is not independent of the order in which the set
    is enumerated: the rules DOMAIN and DOMAIN, (with a trailing comma) are
    two different lines with the same sort key, and the stable sort leaves
    them in the order in which they come. The same holds for the copy of
    the sort key in build_clients.py. *)
Theorem canonical_sort_depends_on_enumeration :
  ["DOMAIN"; "DOMAIN,"] ≡ₚ ["DOMAIN,"; "DOMAIN"]
  ∧ NoDup ["DOMAIN"; "DOMAIN,"]
  ∧ SyncRules.sort_key "DOMAIN" = (0, "DOMAIN", "")
  ∧ SyncRules.sort_key "DOMAIN," = (0, "DOMAIN", "")
  ∧ SyncRules.sorted_rules ["DOMAIN"; "DOMAIN,"] = ["DOMAIN"; "DOMAIN,"]
  ∧ SyncRules.sorted_rules ["DOMAIN,"; "DOMAIN"] = ["DOMAIN,"; "DOMAIN"]
  ∧ BuildClients.sorted_rules ["DOMAIN"; "DOMAIN,"] = ["DOMAIN"; "DOMAIN,"]
  ∧ BuildClients.sorted_rules ["DOMAIN,"; "DOMAIN"] = ["DOMAIN,"; "DOMAIN"].
Proof.
  split; [apply perm_swap|].
  split; [apply (bool_decide_unpack _); by vm_compute|].
  repeat split; by vm_compute.
Qed.

(** *** The order of the sort keys *)

Lemma str_lt_false (a b : string) : Py.str_lt a b = false ↔ String.le b a.
Proof.
  unfold Py.str_lt, String.le, String.ltb, String.leb.
  rewrite (String.compare_antisym a b).
  destruct (String.compare b a); simpl; split; intros Hcmp; done.
Qed.

Lemma str_le_refl (a : string) : String.le a a.
Proof. reflexivity. Qed.

Lemma key_le_spec (r1 r2 : Z) (t1 t2 v1 v2 : string) :
  key_le (r1, t1, v1) (r2, t2, v2)
  ↔ r1 < r2
    ∨ (r1 = r2 ∧ ((t1 ≠ t2 ∧ String.le t1 t2) ∨ (t1 = t2 ∧ String.le v1 v2))).
Proof.
  unfold key_le, Py.key_lt.
  destruct (Z.eqb_spec r2 r1) as [->|Hr]; simpl.
  - destruct (String.eqb_spec t2 t1) as [->|Ht]; simpl.
    + rewrite str_lt_false. split; [intros; right; tauto|].
      intros [?|[_ [[? _]|[_ ?]]]]; [lia|done..].
    + rewrite str_lt_false. split; [intros; right; split; [done|]; left; eauto|].
      intros [?|[_ [[_ ?]|[? _]]]]; [lia|done|congruence].
  - rewrite Z.ltb_ge. split; [intros; left; lia|].
    intros [?|[? _]]; [lia|congruence].
Qed.

Lemma key_le_total (k1 k2 : Z * string * string) :
  key_le k1 k2 ∨ key_le k2 k1.
Proof.
  destruct k1 as [[r1 t1] v1], k2 as [[r2 t2] v2]. rewrite !key_le_spec.
  destruct (Z.lt_trichotomy r1 r2) as [?|[->|?]];
    [left; by left| |right; by left].
  destruct (decide (t1 = t2)) as [->|Ht].
  - destruct (String.le_total v1 v2); [left|right]; right; eauto.
  - destruct (String.le_total t1 t2); [left|right]; right; split; eauto.
Qed.

Lemma key_le_antisym (k1 k2 : Z * string * string) :
  key_le k1 k2 → key_le k2 k1 → k1 = k2.
Proof.
  destruct k1 as [[r1 t1] v1], k2 as [[r2 t2] v2]. rewrite !key_le_spec.
  intros [?|[Hr H1]] [?|[Hr' H2]]; try lia. subst r2.
  destruct H1 as [[Hne H1]|[-> H1]], H2 as [[Hne' H2]|[Heq H2]];
    try congruence.
  - exfalso. apply Hne. by apply (anti_symm String.le).
  - f_equal. by apply (anti_symm String.le).
Qed.

Lemma key_le_trans (k1 k2 k3 : Z * string * string) :
  key_le k1 k2 → key_le k2 k3 → key_le k1 k3.
Proof.
  destruct k1 as [[r1 t1] v1], k2 as [[r2 t2] v2], k3 as [[r3 t3] v3].
  rewrite !key_le_spec.
  intros [?|[Hr H1]] [?|[Hr' H2]]; [left; lia..|]. subst r2 r3.
  right. split; [done|].
  destruct H1 as [[Hne1 H1]|[-> H1]], H2 as [[Hne2 H2]|[-> H2]].
  - left. split; [|by etrans].
    intros ->. apply Hne1. by apply (anti_symm String.le).
  - left. done.
  - left. done.
  - right. split; [done|]. by etrans.
Qed.

(** The rules of a sorted list are in the order of their keys. *)
Lemma sorted_rules_Sorted (l : list string) :
  Sorted (λ x y, key_le (SyncRules.sort_key x) (SyncRules.sort_key y))
         (SyncRules.sorted_rules l).
Proof.
  unfold SyncRules.sorted_rules.
  induction l as [|x l IH]; [constructor|].
  rewrite sorted_cons.
  generalize dependent (Py.sorted SyncRules.sort_key Py.key_lt l).
  intros sl Hsl. clear l. induction Hsl as [|y sl Hsl IH Hhd]; simpl.
  - by repeat constructor.
  - destruct (Py.key_lt (SyncRules.sort_key y) (SyncRules.sort_key x)) eqn:Hlt.
    + constructor; [done|].
      assert (key_le (SyncRules.sort_key y) (SyncRules.sort_key x)) as Hyx.
      { destruct (key_le_total (SyncRules.sort_key y) (SyncRules.sort_key x))
          as [?|Hxy]; [done|]. unfold key_le in Hxy. congruence. }
      destruct Hhd as [|z sl' Hyz]; simpl.
      * by constructor.
      * destruct (Py.key_lt (SyncRules.sort_key z) (SyncRules.sort_key x));
          by constructor.
    + constructor; [by constructor|]. by constructor.
Qed.

(** Canonical sorting does not depend on the enumeration as long as no two
    rules of the set have the same sort key. *)
Lemma sorted_rules_deterministic (l1 l2 : list string) :
  l1 ≡ₚ l2 →
  (∀ x y, x ∈ l1 → y ∈ l1 →
          SyncRules.sort_key x = SyncRules.sort_key y → x = y) →
  SyncRules.sorted_rules l1 = SyncRules.sorted_rules l2.
Proof.
  intros Hperm Hinj.
  set (R := λ x y, key_le (SyncRules.sort_key x) (SyncRules.sort_key y)).
  assert (Transitive R) as Htrans.
  { intros x y z. apply key_le_trans. }
  apply (Sorted_unique_strong R).
  - intros x y Hx Hy Hxy Hyx.
    unfold SyncRules.sorted_rules in Hx, Hy.
    apply elem_of_sorted in Hx. apply elem_of_sorted in Hy.
    apply Hinj; [done|by rewrite Hperm|]. by apply key_le_antisym.
  - apply sorted_rules_Sorted.
  - apply sorted_rules_Sorted.
  - unfold SyncRules.sorted_rules. by rewrite !sorted_perm.
Qed.

Lemma partition_spec (sep : ascii) (s : string) :
  s = (Py.partition sep s).1.1 +:+ (Py.partition sep s).1.2
      +:+ (Py.partition sep s).2
  ∧ (((Py.partition sep s).1.2 = "" ∧ (Py.partition sep s).2 = "")
     ∨ (Py.partition sep s).1.2 = String sep "").
Proof.
  induction s as [|c s [IHeq IHsep]]; simpl.
  - split; [done|]. by left.
  - destruct (Ascii.eqb c sep) eqn:Hc; simpl.
    + apply Ascii.eqb_eq in Hc as ->. split; [done|]. by right.
    + destruct (Py.partition sep s) as [[before found] rest]; simpl in *.
      split; [|done]. rewrite app_cons. by f_equal.
Qed.

(** Two rules have the same sort key only when they are the same line or
    one is the other followed by a comma. *)
Lemma sort_key_collision (x y : string) :
  SyncRules.sort_key x = SyncRules.sort_key y →
  x = y ∨ x = y +:+ "," ∨ y = x +:+ ",".
Proof.
  unfold SyncRules.sort_key.
  destruct (partition_spec "," x) as [Hx Hsx].
  destruct (partition_spec "," y) as [Hy Hsy].
  destruct (Py.partition "," x) as [[tx fx] rx].
  destruct (Py.partition "," y) as [[ty fy] ry]. simpl in *.
  intros Hkey. injection Hkey as _ Ht Hr. subst ty ry.
  destruct Hsx as [[Hfx Hrx]|Hfx], Hsy as [[Hfy Hry]|Hfy];
    rewrite Hx, Hy, Hfx, Hfy.
  - by left.
  - right. right. rewrite Hrx. by rewrite ?app_nil_l, ?app_nil_r_str.
  - right. left. rewrite Hry. by rewrite ?app_nil_l, ?app_nil_r_str.
  - by left.
Qed.

(** X22. Canonical sorting of a set is the same for all its enumerations
    when the set has no line together with the same line followed by a
    comma. *)
Lemma canonical_sort_deterministic (l1 l2 : list string) :
  l1 ≡ₚ l2 →
  (∀ x, x ∈ l1 → x +:+ "," ∉ l1) →
  SyncRules.sorted_rules l1 = SyncRules.sorted_rules l2.
Proof.
  intros Hperm Hfree. apply sorted_rules_deterministic; [done|].
  intros x y Hx Hy Hkey.
  destruct (sort_key_collision x y Hkey) as [?|[->| ->]]; [done|..].
  - by destruct (Hfree y Hy).
  - by destruct (Hfree x Hx).
Qed.

(** ** Where the resolve view is the one of the specification

    The text [,no-resolve] is deleted field-wise when it occurs as a whole
    field only: when the value and the modifiers other than the
    do-not-resolve one do not begin with [no-resolve]. *)

Lemma join_tail_text (f : string) (fields : list string) :
  Py.join "," (f :: fields) = f +:+ tail_text fields.
Proof.
  revert f. induction fields as [|g fields IH]; intros f.
  - simpl. by rewrite app_nil_r_str.
  - change (Py.join "," (f :: g :: fields))
      with (f +:+ "," +:+ Py.join "," (g :: fields)).
    rewrite IH. reflexivity.
Qed.

Lemma prefix_cons_ne (c c' : ascii) (p s : string) :
  c ≠ c' → String.prefix (String c p) (String c' s) = false.
Proof. intros Hne. simpl. by destruct (ascii_dec c c'). Qed.

Lemma replace_skip (old new p rest : string) :
  Py.replace_go old new (String.length p) (p +:+ rest)
  = Py.replace_go old new 0 rest.
Proof.
  induction p as [|c p IH]; [by destruct rest|].
  rewrite app_cons. cbn [String.length Py.replace_go]. apply IH.
Qed.

(** An occurrence at the head of the text is replaced, and the scan goes
    on behind it. *)
Lemma replace_match (c : ascii) (old new rest : string) :
  Py.replace_go (String c old) new 0 (String c old +:+ rest)
  = new +:+ Py.replace_go (String c old) new 0 rest.
Proof.
  pose proof (prefix_app (String c old) rest) as Hpre.
  rewrite app_cons in Hpre |- *. cbn [Py.replace_go]. rewrite Hpre.
  cbn [String.length]. rewrite Nat.sub_succ, Nat.sub_0_r.
  by rewrite replace_skip.
Qed.

Lemma replace_field (f rest : string) :
  comma_free f →
  Py.replace_go ",no-resolve" "" 0 (f +:+ rest)
  = f +:+ Py.replace_go ",no-resolve" "" 0 rest.
Proof.
  induction f as [|c f IH]; intros Hf; [done|].
  unfold comma_free in Hf. simpl in Hf. apply orb_false_elim in Hf as [Hc Hf].
  rewrite !app_cons. cbn [Py.replace_go].
  rewrite prefix_cons_ne.
  - by rewrite IH.
  - intros <-. by rewrite Ascii.eqb_refl in Hc.
Qed.

(** A comma-free pattern that is a prefix of a field followed by the end
    or by a comma is a prefix of the field. *)
Lemma prefix_field (p f rest : string) :
  comma_free p → (rest = "" ∨ ∃ rest', rest = String "," rest') →
  String.prefix p (f +:+ rest) = true → String.prefix p f = true.
Proof.
  intros Hp Hrest. revert f. induction p as [|c p IH]; intros f Hpre.
  - by destruct f.
  - unfold comma_free in Hp. simpl in Hp.
    apply orb_false_elim in Hp as [Hc Hp].
    destruct f as [|c' f].
    + rewrite app_nil_l in Hpre.
      destruct Hrest as [->|[rest' ->]]; [done|].
      simpl in Hpre. destruct (ascii_dec c ",") as [->|]; [|done].
      by rewrite Ascii.eqb_refl in Hc.
    + rewrite app_cons in Hpre. simpl in Hpre |- *.
      destruct (ascii_dec c c'); [|done]. by apply IH.
Qed.

Lemma tail_text_boundary (fields : list string) :
  tail_text fields = "" ∨ ∃ rest', tail_text fields = String "," rest'.
Proof. destruct fields as [|f fields]; [by left|]. right. by eexists. Qed.

Lemma replace_tail_text (fields : list string) :
  Forall comma_free fields →
  Forall (λ f, f = NO_RESOLVE ∨ opens_match f = false) fields →
  Py.replace_go ",no-resolve" "" 0 (tail_text fields)
  = tail_text (List.filter (λ m, negb (String.eqb m "no-resolve")) fields).
Proof.
  induction fields as [|f fields IH]; intros Hfree Hok; [done|].
  inversion Hfree as [|? ? Hf Hfree']; subst.
  inversion Hok as [|? ? Hf_ok Hok']; subst.
  cbn [tail_text List.filter].
  destruct (String.eqb_spec f "no-resolve") as [->|Hne]; cbn [negb].
  - rewrite <-(IH Hfree' Hok').
    change ("," +:+ "no-resolve" +:+ tail_text fields)
      with (String "," "no-resolve" +:+ tail_text fields).
    by rewrite replace_match, app_nil_l.
  - destruct Hf_ok as [->|Hopen]; [done|].
    cbn [tail_text]. rewrite !app_cons, !app_nil_l. cbn [Py.replace_go].
    assert (String.prefix ",no-resolve" (String "," (f +:+ tail_text fields))
            = false) as ->.
    { destruct (String.prefix ",no-resolve"
                  (String "," (f +:+ tail_text fields))) eqn:Hpre; [|done].
      simpl in Hpre.
      apply (prefix_field NO_RESOLVE f (tail_text fields)) in Hpre;
        [|done|apply tail_text_boundary].
      unfold opens_match in Hopen. congruence. }
    by rewrite replace_field, IH.
Qed.

(** On a rule whose value and other modifiers do not begin with
    [no-resolve], the script takes out the do-not-resolve modifier and
    nothing else. *)
Lemma replace_strips_modifier (t v : string) (mods : list string) :
  comma_free t → comma_free v → Forall comma_free mods →
  opens_match v = false →
  Forall (λ m, m = NO_RESOLVE ∨ opens_match m = false) mods →
  Py.replace ",no-resolve" "" (Py.join "," (t :: v :: mods))
  = strip_modifier (Py.join "," (t :: v :: mods)).
Proof.
  intros Ht Hv Hmods Hopen Hok. unfold strip_modifier.
  rewrite (split_join "," t (v :: mods)) by (by repeat constructor).
  rewrite !join_tail_text. unfold Py.replace.
  rewrite replace_field by done. f_equal.
  rewrite (replace_tail_text (v :: mods)).
  - cbn [List.filter].
    destruct (String.eqb_spec v "no-resolve") as [->|_]; [done|].
    reflexivity.
  - by constructor.
  - constructor; [by right|done].
Qed.

(** ** Runs of the scripts on the examples *)

Example header_of_example_counts :
  SyncRules.build_header "OverseasAI" "2024-05-01 00:00:00" example_counts
  = SyncRules.preamble "OverseasAI" "2024-05-01 00:00:00"
    ++ ["# DOMAIN: 2"; "# TOTAL: 3"].
Proof. by vm_compute. Qed.

Example merge_without_gemini :
  SyncRules.main (delete (SyncRules.core_path example_args "Gemini") example_fs)
    example_args example_sync_env
  = ([Mkdir "/repo/rule/Surge/OverseasAI"],
     SystemExit "Missing upstream list: /up/rule/Surge/Gemini/Gemini.list").
Proof. by vm_compute. Qed.

Example merge_reports_and_merges_extra :
  In (WriteText "/repo/reports/upstream_missing.txt"
                ("DOMAIN,extra.example" +:+ nl))
     (fst (SyncRules.main example_fs example_args example_sync_env))
  ∧ "DOMAIN,extra.example"
    ∈ SyncRules.merged_rules example_fs example_args example_sync_env
        example_core.
Proof.
  split.
  - vm_compute. tauto.
  - apply (bool_decide_unpack _). by vm_compute.
Qed.

(** The v6 query of a resolver is not made once its address query has
    failed: here it would have been answered, and the status is UNKNOWN. *)
Example check_domain_after_timeout :
  CheckDomains.check_domain_run example_flaky_dns "x.example"
  = (CheckDomains.UNKNOWN,
     [ {| CheckDomains.attempt_resolver := "1.1.1.1";
          CheckDomains.attempt_qtype := "A";
          CheckDomains.attempt_outcome := CheckDomains.RaiseTimeout |};
       {| CheckDomains.attempt_resolver := "8.8.8.8";
          CheckDomains.attempt_qtype := "A";
          CheckDomains.attempt_outcome := CheckDomains.RaiseNXDOMAIN |};
       {| CheckDomains.attempt_resolver := "8.8.8.8";
          CheckDomains.attempt_qtype := "AAAA";
          CheckDomains.attempt_outcome := CheckDomains.RaiseNXDOMAIN |} ]).
Proof. reflexivity. Qed.

(** Count 2 and a run that finds NXDOMAIN give count 3, a candidate; a run
    that finds OK gives 0; an inconclusive run keeps the count. *)
Example staleness_transitions :
  next_count 2 CheckDomains.NXDOMAIN = 3
  ∧ next_count 3 CheckDomains.OK = 0
  ∧ next_count 2 CheckDomains.UNKNOWN = 2
  ∧ CheckDomains.written_state example_env example_dns "DOMAIN,gone.example"
      (Some example_state) !! "gone.example"
    = Some {| CheckDomains.count := 3;
              CheckDomains.last_status := CheckDomains.NXDOMAIN;
              CheckDomains.last_checked := "2024-05-01T00:00:00Z" |}.
Proof. repeat split; by vm_compute. Qed.

(** * Further properties of the scripts *)

(** ** Canonical ordering, continued *)

Lemma key_lt_asym (k1 k2 : Z * string * string) :
  Py.key_lt k1 k2 = true → Py.key_lt k2 k1 = false.
Proof.
  intros Hlt. destruct (key_le_total k1 k2) as [Hle|Hle]; [done|].
  unfold key_le in Hle. congruence.
Qed.

Lemma rule_le_key_le (x y : string) :
  rule_le x y ↔ key_le (SyncRules.sort_key x) (SyncRules.sort_key y).
Proof.
  unfold rule_le.
  destruct (SyncRules.sort_key x) as [[r1 t1] v1].
  destruct (SyncRules.sort_key y) as [[r2 t2] v2].
  by rewrite key_le_spec.
Qed.

(** A list that is in key order is left as it is by [sorted]. *)
Lemma sorted_fixed {A K : Type} (key : A → K) (lt : K → K → bool)
    (l : list A) :
  Sorted (λ x y, lt (key y) (key x) = false) l → Py.sorted key lt l = l.
Proof.
  induction 1 as [|x l Hsorted IH Hhd]; [done|].
  rewrite sorted_cons, IH. destruct Hhd as [|y l Hxy]; [done|].
  simpl. by rewrite Hxy.
Qed.

(** X1. The canonical sort loses and adds nothing, and its result is in
    the order of the sort keys: by rank, then by type, then by the text
    after the first comma. Both scripts sort in the same way. *)
Theorem canonical_sort_ordered (l : list string) :
  SyncRules.sorted_rules l ≡ₚ l
  ∧ StronglySorted rule_le (SyncRules.sorted_rules l)
  ∧ BuildClients.sorted_rules l = SyncRules.sorted_rules l.
Proof.
  split; [apply sorted_perm|]. split; [|reflexivity].
  assert (Transitive rule_le) as Htrans.
  { intros x y z. rewrite !rule_le_key_le. apply key_le_trans. }
  apply Sorted_StronglySorted; [done|].
  eapply Sorted_ind with (P := Sorted rule_le);
    [constructor| |apply (sorted_rules_Sorted l)].
  intros x sl _ IH Hhd. constructor; [done|].
  destruct Hhd; constructor. by apply rule_le_key_le.
Qed.

Lemma rank_unknown (t : string) :
  t ∉ SyncRules.COUNT_KEYS → SyncRules.RULE_ORDER !! t = None.
Proof.
  intros Hnot. unfold SyncRules.RULE_ORDER.
  apply not_elem_of_list_to_map_1. exact Hnot.
Qed.

Lemma rank_known (i : nat) (t : string) :
  SyncRules.COUNT_KEYS !! i = Some t →
  SyncRules.RULE_ORDER !! t = Some (Z.of_nat i).
Proof.
  unfold SyncRules.COUNT_KEYS. intros Hi.
  do 9 (destruct i as [|i]; [injection Hi as <-; reflexivity|]).
  done.
Qed.

Lemma split_max_not_nil (sep : ascii) (n : nat) (s : string) :
  Py.split_max sep n s ≠ [].
Proof.
  revert n. induction s as [|c s IH]; intros n; simpl; [done|].
  destruct n as [|n]; [done|].
  destruct (Ascii.eqb c sep); [done|].
  specialize (IH (S n)). by destruct (Py.split_max sep (S n) s).
Qed.

Lemma hd_push_char (c : ascii) (fields : list string) :
  fields ≠ [] → hd "" (Py.push_char c fields) = String c (hd "" fields).
Proof. by destruct fields. Qed.

Lemma partition_head_split_max (sep : ascii) (s : string) :
  (Py.partition sep s).1.1 = hd "" (Py.split_max sep 1 s).
Proof.
  induction s as [|c s IH]; simpl; [done|].
  destruct (Ascii.eqb c sep); [done|].
  rewrite hd_push_char by apply split_max_not_nil. rewrite <-IH.
  by destruct (Py.partition sep s) as [[? ?] ?].
Qed.

Lemma partition_head_split (sep : ascii) (s : string) :
  (Py.partition sep s).1.1 = hd "" (Py.split sep s).
Proof.
  induction s as [|c s IH]; simpl; [done|].
  destruct (Ascii.eqb c sep); [done|].
  rewrite hd_push_char by apply split_not_nil. rewrite <-IH.
  by destruct (Py.partition sep s) as [[? ?] ?].
Qed.

Lemma rule_rank_type (rule : string) :
  rule_rank rule
  = default 99 (SyncRules.RULE_ORDER !! SyncRules.rule_type_of rule).
Proof.
  unfold rule_rank, SyncRules.sort_key, SyncRules.rule_type_of.
  rewrite <-partition_head_split_max.
  by destruct (Py.partition "," rule) as [[? ?] ?].
Qed.

(** X4. The scripts read the type of a rule in three ways: the part
    before the first comma for the sort key, the first piece of a split at
    the first comma for the counts, and the first of all the
    comma-separated fields for the remap and the domain check. The three
    give the same string, and it has no comma. *)
Theorem rule_type_agreement (rule : string) :
  (SyncRules.sort_key rule).1.2 = SyncRules.rule_type_of rule
  ∧ hd "" (Py.split "," rule) = SyncRules.rule_type_of rule
  ∧ BuildClients.rule_type_of rule = SyncRules.rule_type_of rule
  ∧ (BuildClients.sort_key rule).1.2 = SyncRules.rule_type_of rule
  ∧ comma_free (SyncRules.rule_type_of rule).
Proof.
  assert ((SyncRules.sort_key rule).1.2 = SyncRules.rule_type_of rule) as Hkey.
  { unfold SyncRules.sort_key, SyncRules.rule_type_of.
    rewrite <-partition_head_split_max.
    by destruct (Py.partition "," rule) as [[? ?] ?]. }
  assert (hd "" (Py.split "," rule) = SyncRules.rule_type_of rule) as Hsplit.
  { unfold SyncRules.rule_type_of.
    by rewrite <-partition_head_split, partition_head_split_max. }
  repeat split; try done.
  rewrite <-Hsplit. apply split_hd_free.
Qed.

Lemma sorted_rules_rank (l l1 l2 l3 : list string) (x y : string) :
  SyncRules.sorted_rules l = l1 ++ x :: l2 ++ y :: l3 →
  rule_rank x ≤ rule_rank y.
Proof.
  intros Hshape.
  assert (key_le (SyncRules.sort_key x) (SyncRules.sort_key y)) as Hle.
  { assert (Transitive (λ a b, key_le (SyncRules.sort_key a)
                                      (SyncRules.sort_key b))) as Htrans.
    { intros a b c. apply key_le_trans. }
    pose proof (Sorted_StronglySorted _ _ (sorted_rules_Sorted l)) as Hss.
    rewrite Hshape in Hss.
    apply StronglySorted_app_1_r, StronglySorted_cons in Hss as [Hall _].
    rewrite Forall_forall in Hall. apply Hall.
    apply elem_of_app. right. by left. }
  unfold rule_rank.
  destruct (SyncRules.sort_key x) as [[r1 t1] v1].
  destruct (SyncRules.sort_key y) as [[r2 t2] v2].
  apply key_le_spec in Hle. simpl. lia.
Qed.

(** X2. The rank of a rule is the position of its type in the enumeration
    of the nine known types, and 99 for any other type; in the canonical
    list ranks never decrease, so that the rules of the known types come
    in the order of the enumeration and the rules of all other types come
    last. *)
Theorem rank_orders_types (l l1 l2 l3 : list string) (x y : string) :
  SyncRules.sorted_rules l = l1 ++ x :: l2 ++ y :: l3 →
  rule_rank x ≤ rule_rank y
  ∧ (∀ rule i, SyncRules.COUNT_KEYS !! i = Some (SyncRules.rule_type_of rule) →
               rule_rank rule = Z.of_nat i)
  ∧ (∀ rule, SyncRules.rule_type_of rule ∉ SyncRules.COUNT_KEYS →
             rule_rank rule = 99)
  ∧ (SyncRules.rule_type_of y ∈ SyncRules.COUNT_KEYS →
     SyncRules.rule_type_of x ∈ SyncRules.COUNT_KEYS).
Proof.
  intros Hshape.
  pose proof (sorted_rules_rank l l1 l2 l3 x y Hshape) as Hrank.
  assert (∀ rule i,
            SyncRules.COUNT_KEYS !! i = Some (SyncRules.rule_type_of rule) →
            rule_rank rule = Z.of_nat i) as Hknown.
  { intros rule i Hi. by rewrite rule_rank_type, (rank_known i). }
  assert (∀ rule, SyncRules.rule_type_of rule ∉ SyncRules.COUNT_KEYS →
                  rule_rank rule = 99) as Hunknown.
  { intros rule Hnot. by rewrite rule_rank_type, rank_unknown. }
  do 3 (split; [done|]).
  intros Hy. apply list_elem_of_lookup in Hy as [i Hi].
  destruct (decide (SyncRules.rule_type_of x ∈ SyncRules.COUNT_KEYS))
    as [|Hx]; [done|].
  rewrite (Hknown y i Hi), (Hunknown x Hx) in Hrank.
  apply lookup_lt_Some in Hi. simpl in Hi. lia.
Qed.

Lemma rank_orders_types_witness :
  rule_rank "DOMAIN,a.example" ≤ rule_rank "PROCESS-NAME,tool".
Proof.
  refine (proj1 (rank_orders_types
                   ["PROCESS-NAME,tool"; "DOMAIN,a.example"] [] [] []
                   "DOMAIN,a.example" "PROCESS-NAME,tool" _)).
  reflexivity.
Defined.

(** X3. Sorting a list that is already canonical changes nothing: the
    sort of build_clients.py leaves the order written by sync_rules.py as
    it is. *)
Theorem canonical_sort_idempotent (l : list string) :
  SyncRules.sorted_rules (SyncRules.sorted_rules l) = SyncRules.sorted_rules l
  ∧ BuildClients.sorted_rules (SyncRules.sorted_rules l)
    = SyncRules.sorted_rules l.
Proof.
  assert (SyncRules.sorted_rules (SyncRules.sorted_rules l)
          = SyncRules.sorted_rules l) as Hfix.
  { unfold SyncRules.sorted_rules at 1. apply sorted_fixed.
    apply (sorted_rules_Sorted l). }
  split; exact Hfix.
Qed.

(** ** Counts and headers, continued *)

Lemma counter_sum_incr (c : gmap string Z) (k : string) :
  Py.counter_sum (Py.counter_incr c k) = Py.counter_sum c + 1.
Proof.
  unfold Py.counter_incr.
  rewrite (counter_sum_delete (<[k:=Py.counter_item c k + 1]> c) k).
  rewrite (counter_sum_delete c k), delete_insert_eq.
  unfold Py.counter_item at 1. rewrite lookup_insert_eq. simpl. lia.
Qed.

Lemma counter_sum_fold (l : list string) (c : gmap string Z) :
  Py.counter_sum (fold_left Py.counter_incr l c)
  = Py.counter_sum c + Z.of_nat (length l).
Proof.
  revert c. induction l as [|k l IH]; intros c; simpl; [lia|].
  rewrite IH, counter_sum_incr. lia.
Qed.

Lemma counter_sum_counter_of (l : list string) :
  Py.counter_sum (Py.counter_of l) = Z.of_nat (length l).
Proof. unfold Py.counter_of. by rewrite counter_sum_fold. Qed.

Lemma counter_item_incr (c : gmap string Z) (j k : string) :
  Py.counter_item (Py.counter_incr c j) k
  = Py.counter_item c k + (if String.eqb j k then 1 else 0).
Proof.
  unfold Py.counter_incr.
  destruct (String.eqb_spec j k) as [->|Hne].
  - unfold Py.counter_item at 1. by rewrite lookup_insert_eq.
  - rewrite counter_item_insert_ne by done. lia.
Qed.

Lemma counter_item_fold (l : list string) (c : gmap string Z) (k : string) :
  Py.counter_item (fold_left Py.counter_incr l c) k
  = Py.counter_item c k
    + Z.of_nat (length (List.filter (λ j, String.eqb j k) l)).
Proof.
  revert c. induction l as [|j l IH]; intros c; simpl; [lia|].
  rewrite IH, counter_item_incr.
  destruct (String.eqb j k); simpl; lia.
Qed.

Lemma counter_item_counter_of (l : list string) (k : string) :
  Py.counter_item (Py.counter_of l) k
  = Z.of_nat (length (List.filter (λ j, String.eqb j k) l)).
Proof.
  unfold Py.counter_of. rewrite counter_item_fold.
  unfold Py.counter_item. by rewrite lookup_empty.
Qed.

(** X5. The total line of every header the scripts build from a list of
    rules shows the number of rules of the list, whatever their types:
    the header of the canonical and of the pass-through artifacts, and the
    header of the remapped artifacts, whose counts are taken after the
    remap. *)
Theorem header_total_is_rule_count (name updated : string)
    (base_meta rules : list string) :
  last (SyncRules.build_header name updated
          (Py.counter_of (SyncRules.rule_type_of <$> rules)))
  = Some ("# TOTAL: " +:+ pretty (Z.of_nat (length rules)))
  ∧ last (BuildClients.build_header name base_meta
            (Py.counter_of (BuildClients.rule_type_of <$> rules)))
    = Some ("# TOTAL: " +:+ pretty (Z.of_nat (length rules)))
  ∧ last (BuildClients.build_qx_header name base_meta
            (Py.counter_of ((fst ∘ BuildClients.qx_transform) <$> rules)))
    = Some ("# TOTAL: " +:+ pretty (Z.of_nat (length rules))).
Proof.
  unfold SyncRules.build_header, BuildClients.build_header,
    BuildClients.build_qx_header, SyncRules.total_line,
    BuildClients.total_line.
  rewrite !(assoc (++)), !last_snoc, !counter_sum_counter_of, !length_fmap.
  done.
Qed.

Lemma length_filter_fmap {A B : Type} (f : A → B) (p : B → bool)
    (l : list A) :
  length (List.filter p (f <$> l)) = length (List.filter (p ∘ f) l).
Proof.
  induction l as [|x l IH]; [done|]. rewrite fmap_cons. simpl.
  destruct (p (f x)); simpl; by rewrite IH.
Qed.

Lemma rule_type_of_split (rule : string) :
  SyncRules.rule_type_of rule = hd "" (Py.split "," rule).
Proof.
  unfold SyncRules.rule_type_of.
  by rewrite <-partition_head_split, partition_head_split_max.
Qed.

Lemma counter_item_types (rules : list string) (k : string) :
  Py.counter_item (Py.counter_of (SyncRules.rule_type_of <$> rules)) k
  = type_count rules k.
Proof.
  rewrite counter_item_counter_of. unfold type_count. f_equal.
  rewrite length_filter_fmap. f_equal.
  apply List.filter_ext. intros rule. simpl. by rewrite rule_type_of_split.
Qed.

Lemma emitted_counts_types (rules : list string) :
  emitted_counts (Py.counter_of (SyncRules.rule_type_of <$> rules))
  = counted_types rules.
Proof.
  unfold emitted_counts, counted_types.
  rewrite (List.filter_ext _ (λ k, 0 <? type_count rules k)).
  - apply list_fmap_ext. intros _ k _. by rewrite counter_item_types.
  - intros k. rewrite counter_item_types. unfold type_count.
    destruct (Z.eqb_spec (Z.of_nat (length (List.filter
                (λ rule, String.eqb (hd "" (Py.split "," rule)) k) rules))) 0);
      destruct (Z.ltb_spec 0 (Z.of_nat (length (List.filter
                (λ rule, String.eqb (hd "" (Py.split "," rule)) k) rules))));
      simpl; lia.
Qed.

(** X6. The header of a list of rules is its first lines, then a count
    line [# k: n] for each type [k] of the enumeration that some rule has,
    with [n] the number of rules of type [k], in the order of the
    enumeration, then the total line with the number of rules. A type no
    rule has gets no count line, and neither does a type outside the
    enumeration. *)
Theorem count_lines_count_rules (name updated : string)
    (base_meta rules : list string) :
  SyncRules.build_header name updated
    (Py.counter_of (SyncRules.rule_type_of <$> rules))
  = header_lines (sync_preamble_text name updated) (counted_types rules)
      (Z.of_nat (length rules))
  ∧ BuildClients.build_header name base_meta
      (Py.counter_of (BuildClients.rule_type_of <$> rules))
    = header_lines (client_preamble_text name base_meta) (counted_types rules)
        (Z.of_nat (length rules))
  ∧ (∀ k n, (k, n) ∈ counted_types rules
            ↔ k ∈ TYPE_ENUMERATION ∧ n = type_count rules k
              ∧ ∃ rule, rule ∈ rules ∧ hd "" (Py.split "," rule) = k).
Proof.
  split; [|split].
  - by rewrite sync_header_lines, emitted_counts_types,
      counter_sum_counter_of, length_fmap.
  - change BuildClients.rule_type_of with SyncRules.rule_type_of.
    by rewrite client_header_lines, emitted_counts_types,
      counter_sum_counter_of, length_fmap.
  - intros k n. unfold counted_types.
    rewrite list_elem_of_fmap. split.
    + intros (k' & [= -> ->] & Hk).
      apply list_elem_of_In, filter_In in Hk as [Hk Hpos].
      apply Z.ltb_lt in Hpos.
      split; [by apply list_elem_of_In|]. split; [done|].
      unfold type_count in Hpos.
      destruct (List.filter _ rules) as [|r ?] eqn:Hfilter; [simpl in Hpos; lia|].
      assert (In r (List.filter
                      (λ rule, String.eqb (hd "" (Py.split "," rule)) k')
                      rules)) as Hin by (rewrite Hfilter; by left).
      apply filter_In in Hin as [Hin Heq].
      exists r. split; [by apply list_elem_of_In|]. by apply String.eqb_eq.
    + intros (Hk & -> & r & Hin & Heq).
      exists k. split; [done|].
      apply list_elem_of_In, filter_In. split; [by apply list_elem_of_In|].
      apply Z.ltb_lt. unfold type_count.
      assert (In r (List.filter
                      (λ rule, String.eqb (hd "" (Py.split "," rule)) k)
                      rules)) as Hfiltered.
      { apply filter_In. split; [by apply list_elem_of_In|].
        by apply String.eqb_eq. }
      destruct (List.filter _ rules); [done|]. simpl. lia.
Qed.

Lemma filter_nil_Forall {A : Type} (f : A → bool) (l : list A) :
  Forall (λ x, f x = false) l → List.filter f l = [].
Proof.
  induction 1 as [|x l Hx _ IH]; [done|]. simpl. by rewrite Hx.
Qed.

Lemma count_lines_not_meta (counts : gmap string Z) (keys : list string) :
  keys ⊆ SyncRules.COUNT_KEYS →
  BuildClients.meta_of (SyncRules.count_line counts <$> keys) = [].
Proof.
  intros Hkeys. apply filter_nil_Forall, Forall_fmap, Forall_forall.
  intros k Hk. apply Hkeys in Hk. unfold SyncRules.COUNT_KEYS in Hk.
  repeat (apply elem_of_cons in Hk as [->|Hk]; [by vm_compute|]).
  by apply not_elem_of_nil in Hk.
Qed.

Lemma emitted_keys_subseteq (keys : list string) (counts : gmap string Z) :
  SyncRules.emitted_keys keys counts ⊆ keys.
Proof. intros k Hk. by apply emitted_keys_spec in Hk as [? _]. Qed.

Lemma meta_of_sync_header (name updated : string) (counts : gmap string Z) :
  BuildClients.meta_of (SyncRules.build_header name updated counts)
  = tl (SyncRules.preamble name updated).
Proof.
  unfold SyncRules.build_header, BuildClients.meta_of.
  rewrite !List.filter_app.
  fold (BuildClients.meta_of
          (SyncRules.count_line counts
             <$> SyncRules.emitted_keys SyncRules.COUNT_KEYS counts)).
  rewrite count_lines_not_meta by apply emitted_keys_subseteq.
  by vm_compute.
Qed.

(** X7. build_clients.py takes from a header the lines that are neither
    the name nor a count, and builds the header anew around them. On the
    header sync_rules.py writes, this keeps the seven lines between the
    name and the counts, drops every count line and the total, and, with
    the same name and counts, builds the very same header again. No line
    kept as meta starts like a name or a count line. *)
Theorem header_rebuilt_from_meta (name updated : string)
    (counts : gmap string Z) :
  BuildClients.meta_of (SyncRules.build_header name updated counts)
  = tl (SyncRules.preamble name updated)
  ∧ BuildClients.build_header name
      (BuildClients.meta_of (SyncRules.build_header name updated counts))
      counts
    = SyncRules.build_header name updated counts
  ∧ ∀ header line,
      line ∈ BuildClients.meta_of header →
      line ∈ header
      ∧ Py.startswith line "# NAME:" = false
      ∧ Py.startswith_any line BuildClients.count_prefixes = false.
Proof.
  split; [apply meta_of_sync_header|]. split.
  - rewrite meta_of_sync_header. reflexivity.
  - intros header line Hline. unfold BuildClients.meta_of in Hline.
    apply list_elem_of_In, filter_In in Hline as [Hin Hkeep].
    apply andb_prop in Hkeep as [Hname Hcount].
    split; [by apply list_elem_of_In|].
    split; by apply negb_true_iff.
Qed.

Lemma header_rebuilt_from_meta_witness :
  "# UPDATED: 2024-05-01 00:00:00"
  ∈ ["# NAME: old"; "# UPDATED: 2024-05-01 00:00:00"; "# DOMAIN: 7";
     "# TOTAL: 7"]
  ∧ Py.startswith "# UPDATED: 2024-05-01 00:00:00" "# NAME:" = false
  ∧ Py.startswith_any "# UPDATED: 2024-05-01 00:00:00"
      BuildClients.count_prefixes = false.
Proof.
  refine (proj2 (proj2 (header_rebuilt_from_meta "" "" ∅)) _ _ _).
  vm_compute. apply list_elem_of_here.
Defined.

(** ** Reading rule files *)

Section parsing.
Context `{Py.Runtime}.

Lemma filter_filter {A : Type} (f g : A → bool) (l : list A) :
  List.filter f (List.filter g l) = List.filter (λ x, g x && f x) l.
Proof.
  induction l as [|x l IH]; [done|]. simpl.
  destruct (g x); simpl; [|done]. destruct (f x); by rewrite IH.
Qed.

(** X8. The three scripts read the same rules from a text: the rule lines
    build_clients.py finds are those sync_rules.py and check_domains.py
    find. No rule line is empty or a comment, every header line of
    build_clients.py is a comment, and each stripped non-empty line of the
    text is either a header line or a rule line. *)
Theorem parse_rules_agree (text : string) :
  snd (BuildClients.parse_rules text) = SyncRules.parse_rules text
  ∧ CheckDomains.parse_rules text = SyncRules.parse_rules text
  ∧ Forall (λ line, line ≠ "" ∧ Py.startswith line "#" = false)
           (SyncRules.parse_rules text)
  ∧ Forall (λ line, line ≠ "" ∧ Py.startswith line "#" = true)
           (fst (BuildClients.parse_rules text))
  ∧ (length (fst (BuildClients.parse_rules text))
     + length (snd (BuildClients.parse_rules text)))%nat
    = length (List.filter (λ line, negb (String.eqb line ""))
                          (Py.strip <$> Py.splitlines text)).
Proof.
  unfold BuildClients.parse_rules, SyncRules.parse_rules,
    CheckDomains.parse_rules, SyncRules.is_rule_line. cbn [fst snd].
  generalize (Py.strip <$> Py.splitlines text). intros lines.
  split; [apply filter_filter|]. split; [done|]. split; [|split].
  - apply Forall_forall. intros line Hline.
    apply list_elem_of_In, filter_In in Hline as [_ Hkeep].
    apply andb_prop in Hkeep as [Hne Hcomment].
    split; [|by apply negb_true_iff].
    intros ->. done.
  - apply Forall_forall. intros line Hline.
    apply list_elem_of_In, filter_In in Hline as [Hin Hcomment].
    apply filter_In in Hin as [_ Hne]. split; [|done].
    intros ->. done.
  - induction lines as [|line lines IH]; [done|]. simpl.
    destruct (String.eqb line ""); simpl; [done|].
    destruct (Py.startswith line "#"); simpl; lia.
Qed.
End parsing.

(** ** The domains that are checked *)

Lemma sorted_Sorted {A K : Type} (key : A → K) (lt : K → K → bool)
    (l : list A) :
  (∀ a b, lt a b = true → lt b a = false) →
  Sorted (λ x y, lt (key y) (key x) = false) (Py.sorted key lt l).
Proof.
  intros Hasym. induction l as [|x l IH]; [constructor|].
  rewrite sorted_cons. generalize dependent (Py.sorted key lt l).
  intros sl Hsl. clear l. induction Hsl as [|y sl Hsl IH Hhd]; simpl.
  - by repeat constructor.
  - destruct (lt (key y) (key x)) eqn:Hlt.
    + constructor; [done|]. apply Hasym in Hlt.
      destruct Hhd as [|z sl' Hyz]; simpl; [by constructor|].
      destruct (lt (key z) (key x)); by constructor.
    + constructor; [by constructor|]. by constructor.
Qed.

Lemma str_lt_asym (a b : string) :
  Py.str_lt a b = true → Py.str_lt b a = false.
Proof.
  unfold Py.str_lt, String.ltb. rewrite (String.compare_antisym a b).
  by destruct (String.compare b a).
Qed.

Lemma str_le_ne_lt (a b : string) :
  Py.str_lt b a = false → a ≠ b → Py.str_lt a b = true.
Proof.
  unfold Py.str_lt, String.ltb. intros Hba Hne.
  pose proof (String.compare_antisym a b) as Hanti.
  destruct (String.compare a b) eqn:Hcmp; [|done|].
  - by apply String.compare_eq_iff in Hcmp.
  - destruct (String.compare b a); done.
Qed.

Section domains.
Context `{Py.Runtime}.

Lemma sorted_set_strict (l : list string) :
  StronglySorted (λ a b, Py.str_lt a b = true) (CheckDomains.sorted_set l).
Proof.
  pose proof (NoDup_sorted_set l) as Hnodup.
  assert (StronglySorted (λ a b, Py.str_lt b a = false)
            (CheckDomains.sorted_set l)) as Hsorted.
  { apply Sorted_StronglySorted.
    - intros a b c. rewrite !str_lt_false. intros ? ?. by etrans.
    - apply (sorted_Sorted id Py.str_lt), str_lt_asym. }
  induction Hsorted as [|a sl Hsl IH Hall]; [constructor|].
  apply NoDup_cons in Hnodup as [Hnot Hnodup].
  constructor; [by apply IH|].
  rewrite Forall_forall in Hall |- *. intros b Hb.
  apply str_le_ne_lt; [by apply Hall|]. intros ->. done.
Qed.

Lemma domain_of_spec (rule d : string) :
  CheckDomains.domain_of rule = Some d
  ↔ ∃ t fields, Py.split "," rule = t :: d :: fields
                ∧ (t = "DOMAIN" ∨ t = "DOMAIN-SUFFIX").
Proof.
  unfold CheckDomains.domain_of, CheckDomains.RULE_TYPES_CHECK.
  destruct (Py.split "," rule) as [|t [|v fields]]; simpl.
  - case_bool_decide; split; try done; by intros (? & ? & ? & _).
  - case_bool_decide; split; try done; by intros (? & ? & ? & _).
  - case_bool_decide as Ht.
    + split.
      * intros [= ->]. exists t, fields. split; [done|].
        apply elem_of_union in Ht as [Ht|Ht];
          apply elem_of_singleton in Ht; auto.
      * by intros (? & ? & [= -> -> ->] & _).
    + split; [done|]. intros (? & ? & [= <- <- <-] & Ht').
      exfalso. apply Ht. destruct Ht' as [->| ->].
      * apply elem_of_union_l. by apply elem_of_singleton.
      * apply elem_of_union_r. by apply elem_of_singleton.
Qed.

(** X9. The domains that are checked are the second fields of the rules
    whose first field is DOMAIN or DOMAIN-SUFFIX, whatever follows the
    second field; a rule of another type, or without a second field,
    gives none. They come without repetition and in strictly increasing
    order. *)
Theorem iter_domains_spec (rules : list string) :
  NoDup (CheckDomains.iter_domains rules)
  ∧ StronglySorted (λ a b, Py.str_lt a b = true)
                   (CheckDomains.iter_domains rules)
  ∧ ∀ d, d ∈ CheckDomains.iter_domains rules
         ↔ ∃ rule t fields,
             rule ∈ rules ∧ Py.split "," rule = t :: d :: fields
             ∧ (t = "DOMAIN" ∨ t = "DOMAIN-SUFFIX").
Proof.
  unfold CheckDomains.iter_domains.
  split; [apply NoDup_sorted_set|]. split; [apply sorted_set_strict|].
  intros d. rewrite elem_of_sorted_set, list_elem_of_omap. split.
  - intros (rule & Hin & Hdom). apply domain_of_spec in Hdom
      as (t & fields & ? & ?). by exists rule, t, fields.
  - intros (rule & t & fields & Hin & Hsplit & Ht).
    exists rule. split; [done|]. apply domain_of_spec. by exists t, fields.
Qed.
End domains.

(** ** The monitor's loop, continued *)

Section monitor.
Import CheckDomains.
Context `{Py.Runtime}.

Lemma advance_counters (state : gmap string LivenessRecord)
    (results : gmap string Status) (utcnow : string → string)
    (acc : Loop) (d : string) :
  counters (advance state results utcnow acc d)
  = Py.counter_incr (counters acc)
      (status_str (default UNKNOWN (results !! d))).
Proof. reflexivity. Qed.

Lemma fold_advance_counters (state : gmap string LivenessRecord)
    (results : gmap string Status) (utcnow : string → string)
    (domains : list string) (acc : Loop) :
  counters (fold_left (advance state results utcnow) domains acc)
  = fold_left Py.counter_incr
      ((λ d, status_str (default UNKNOWN (results !! d))) <$> domains)
      (counters acc).
Proof.
  revert acc. induction domains as [|d l IH]; intros acc; [done|].
  cbn [fold_left]. by rewrite IH, advance_counters.
Qed.

Lemma fold_advance_unknowns (state : gmap string LivenessRecord)
    (results : gmap string Status) (utcnow : string → string)
    (domains : list string) (acc : Loop) (d : string) :
  d ∈ unknowns (fold_left (advance state results utcnow) domains acc)
  ↔ d ∈ unknowns acc
    ∨ (d ∈ domains ∧ default UNKNOWN (results !! d) = UNKNOWN).
Proof.
  revert acc. induction domains as [|x l IH]; intros acc.
  - cbn [fold_left]. split; [tauto|].
    intros [?|[Hd _]]; [done|]. by apply not_elem_of_nil in Hd.
  - cbn [fold_left]. rewrite IH, elem_of_cons. unfold advance at 1.
    cbn [unknowns].
    destruct (default UNKNOWN (results !! x)) eqn:Hx.
    + split; [intros [?|[? ?]]; eauto|].
      intros [?|[[->|?] ?]]; eauto. congruence.
    + split; [intros [?|[? ?]]; eauto|].
      intros [?|[[->|?] ?]]; eauto. congruence.
    + rewrite elem_of_app, list_elem_of_singleton. split.
      * intros [[?| ->]|[? ?]]; eauto.
      * intros [?|[[->|?] ?]]; eauto.
Qed.

Lemma collect_status (dns : DNS) (domains : list string) (d : string) :
  d ∈ domains → default UNKNOWN (collect dns domains !! d) = check_domain dns d.
Proof. intros Hd. by rewrite collect_lookup, decide_True. Qed.

Lemma run_counters (env : Env) (dns : DNS) (rules_text : string)
    (state_file : option (gmap string LivenessRecord)) :
  counters (run env dns rules_text state_file)
  = Py.counter_of
      ((λ d, status_str (check_domain dns d))
         <$> iter_domains (parse_rules rules_text)).
Proof.
  unfold run, run_loop. rewrite fold_advance_counters. cbn [counters].
  unfold Py.counter_of. f_equal. apply list_fmap_ext. intros i d Hd.
  f_equal. apply collect_status. by eapply list_elem_of_lookup_2.
Qed.

Lemma status_eqb_eq (s1 s2 : Status) : status_eqb s1 s2 = true ↔ s1 = s2.
Proof. destruct s1, s2; by vm_compute. Qed.

Lemma length_by_status (f : string → Status) (l : list string) :
  (length (List.filter (λ d, status_eqb (f d) OK) l)
   + length (List.filter (λ d, status_eqb (f d) NXDOMAIN) l)
   + length (List.filter (λ d, status_eqb (f d) UNKNOWN) l))%nat
  = length l.
Proof.
  induction l as [|d l IH]; [done|]. simpl.
  destruct (f d); simpl; lia.
Qed.

(** X10. The three counts of the report are the numbers of checked domains
    whose status in this run is OK, NXDOMAIN and UNKNOWN, and they add up
    to the number of checked domains. *)
Theorem report_counts (env : Env) (dns : DNS) (rules_text : string)
    (state_file : option (gmap string LivenessRecord)) :
  let domains := iter_domains (parse_rules rules_text) in
  let counted := counters (run env dns rules_text state_file) in
  (∀ s, Py.counter_item counted (status_str s)
        = Z.of_nat (length (List.filter
                              (λ d, status_eqb (check_domain dns d) s)
                              domains)))
  ∧ Py.counter_item counted "OK" + Py.counter_item counted "NXDOMAIN"
    + Py.counter_item counted "UNKNOWN"
    = Z.of_nat (length domains).
Proof.
  intros domains counted.
  assert (∀ s, Py.counter_item counted (status_str s)
        = Z.of_nat (length (List.filter
                              (λ d, status_eqb (check_domain dns d) s)
                              domains))) as Hcount.
  { intros s. unfold counted. rewrite run_counters, counter_item_counter_of.
    f_equal. apply (length_filter_fmap
                      (λ d, status_str (check_domain dns d))
                      (λ j, String.eqb j (status_str s))). }
  split; [done|].
  change "OK" with (status_str OK).
  change "NXDOMAIN" with (status_str NXDOMAIN).
  change "UNKNOWN" with (status_str UNKNOWN).
  rewrite !Hcount, <-!Nat2Z.inj_add. f_equal.
  apply (length_by_status (check_domain dns)).
Qed.

(** X11. The unknowns of the report are the checked domains whose status
    in this run is UNKNOWN, without repetition and in increasing order. *)
Theorem reported_unknowns (env : Env) (dns : DNS) (rules_text : string)
    (state_file : option (gmap string LivenessRecord)) :
  let listed := sorted_set (unknowns (run env dns rules_text state_file)) in
  NoDup listed
  ∧ StronglySorted (λ a b, Py.str_lt a b = true) listed
  ∧ ∀ d, d ∈ listed
         ↔ d ∈ iter_domains (parse_rules rules_text)
           ∧ check_domain dns d = UNKNOWN.
Proof.
  intros listed. split; [apply NoDup_sorted_set|].
  split; [apply sorted_set_strict|].
  intros d. unfold listed. rewrite elem_of_sorted_set.
  unfold run, run_loop. rewrite fold_advance_unknowns. cbn [unknowns].
  split.
  - intros [Hnil|[Hd Hs]]; [by apply not_elem_of_nil in Hnil|].
    split; [done|]. by rewrite collect_status in Hs.
  - intros [Hd Hs]. right. split; [done|]. by rewrite collect_status.
Qed.

Lemma reported_candidates_spec (env : Env) (dns : DNS) (rules_text : string)
    (state_file : option (gmap string LivenessRecord)) (d : string) :
  d ∈ reported_candidates env dns rules_text state_file
  ↔ d ∈ iter_domains (parse_rules rules_text)
    ∧ THRESHOLD ≤ next_count (prior_count (default ∅ state_file) d)
                             (check_domain dns d).
Proof.
  unfold reported_candidates. rewrite elem_of_sorted_set.
  unfold run, run_loop. rewrite fold_advance_candidates.
  cbn [candidates]. unfold stored_record. cbn [count]. split.
  - intros [Hnil|[Hd Hle]]; [by apply not_elem_of_nil in Hnil|].
    split; [done|]. by rewrite collect_status in Hle.
  - intros [Hd Hle]. right. split; [done|]. by rewrite collect_status.
Qed.

(** X12. The candidates of a run are the checked domains whose new count
    reaches the threshold, without repetition and in increasing order. So
    a domain that is not in the rule list is never a candidate, nor is a
    domain whose status is OK, whatever its history; and a run that finds
    no state file, or an empty one, reports no candidate at all. *)
Theorem candidates_need_history (env : Env) (dns : DNS) (rules_text : string)
    (state_file : option (gmap string LivenessRecord)) :
  NoDup (reported_candidates env dns rules_text state_file)
  ∧ StronglySorted (λ a b, Py.str_lt a b = true)
      (reported_candidates env dns rules_text state_file)
  ∧ (∀ d, d ∈ reported_candidates env dns rules_text state_file
          ↔ d ∈ iter_domains (parse_rules rules_text)
            ∧ THRESHOLD ≤ next_count (prior_count (default ∅ state_file) d)
                                     (check_domain dns d))
  ∧ (∀ d, check_domain dns d = OK →
          d ∉ reported_candidates env dns rules_text state_file)
  ∧ (default ∅ state_file = ∅ →
     reported_candidates env dns rules_text state_file = []).
Proof.
  split; [apply NoDup_sorted_set|]. split; [apply sorted_set_strict|].
  split; [apply reported_candidates_spec|]. split.
  - intros d Hok [_ Hle]%reported_candidates_spec.
    rewrite Hok in Hle. unfold THRESHOLD in Hle. simpl in Hle. lia.
  - intros Hempty. apply elem_of_nil_inv.
    intros d [_ Hle]%reported_candidates_spec.
    rewrite Hempty in Hle. unfold prior_count, THRESHOLD in Hle.
    rewrite lookup_empty in Hle. destruct (check_domain dns d); simpl in Hle; lia.
Qed.

End monitor.

Lemma candidates_need_history_witness :
  CheckDomains.reported_candidates example_env example_dns
    "DOMAIN,gone.example" None = [].
Proof.
  refine (proj2 (proj2 (proj2 (proj2
            (candidates_need_history example_env example_dns
               "DOMAIN,gone.example" None)))) _).
  reflexivity.
Defined.

Section history.
Import CheckDomains.
Context `{Py.Runtime}.

Lemma prior_count_written (env : Env) (dns : DNS) (rules_text : string)
    (state_file : option (gmap string LivenessRecord)) (d : string) :
  d ∈ iter_domains (parse_rules rules_text) →
  prior_count (written_state env dns rules_text state_file) d
  = next_count (prior_count (default ∅ state_file) d) (check_domain dns d).
Proof.
  intros Hd. unfold prior_count at 1.
  rewrite written_state_lookup, decide_True by done.
  unfold stored_record. cbn [count]. by rewrite collect_status.
Qed.

(** X13. Over consecutive runs in each of which a domain is in the rule
    list and is found NXDOMAIN, its count grows by one per run: after [n]
    such runs it is the count it started with plus [n], and in the next
    such run the domain is a candidate exactly when that count plus one
    reaches the threshold. *)
Theorem consecutive_nxdomain (runs : nat → Env * DNS * string)
    (state_file : option (gmap string LivenessRecord)) (d : string)
    (n : nat) :
  (∀ k env dns rules_text,
     (k ≤ n)%nat → runs k = (env, dns, rules_text) →
     d ∈ iter_domains (parse_rules rules_text)
     ∧ check_domain dns d = NXDOMAIN) →
  prior_count (state_after runs n state_file) d
  = prior_count (default ∅ state_file) d + Z.of_nat n
  ∧ ∀ env dns rules_text,
      runs n = (env, dns, rules_text) →
      (d ∈ reported_candidates env dns rules_text
             (Some (state_after runs n state_file))
       ↔ THRESHOLD ≤ prior_count (default ∅ state_file) d + Z.of_nat n + 1).
Proof.
  intros Hruns.
  assert (∀ m, (m ≤ n)%nat →
               prior_count (state_after runs m state_file) d
               = prior_count (default ∅ state_file) d + Z.of_nat m) as Hcount.
  { induction m as [|m IH]; intros Hm.
    - cbn [state_after]. lia.
    - cbn [state_after]. destruct (runs m) as [[env dns] rules_text] eqn:Hrun.
      destruct (Hruns m env dns rules_text) as [Hd Hs]; [lia|done|].
      rewrite prior_count_written by done. cbn [from_option id].
      rewrite IH by lia. rewrite Hs. simpl. lia. }
  split; [by apply Hcount|].
  intros env dns rules_text Hrun.
  destruct (Hruns n env dns rules_text) as [Hd Hs]; [lia|done|].
  rewrite reported_candidates_spec. cbn [from_option id].
  rewrite Hcount by lia. rewrite Hs. simpl. tauto.
Qed.

(** X14. A run keeps the counts non-negative: when no count of the prior
    state is negative, no count of the written state is. Every record of
    the written state carries the status of its domain in this run and the
    time at which the domain was reached. *)
Theorem written_records_wellformed (env : Env) (dns : DNS)
    (rules_text : string)
    (state_file : option (gmap string LivenessRecord)) :
  map_Forall (λ _ r, 0 ≤ count r) (default ∅ state_file) →
  map_Forall (λ d r, 0 ≤ count r
                     ∧ last_status r = check_domain dns d
                     ∧ last_checked r = utcnow env d)
             (written_state env dns rules_text state_file).
Proof.
  intros Hprior d r Hr. rewrite written_state_lookup in Hr.
  case_decide as Hd; [|done]. injection Hr as <-.
  unfold stored_record. cbn [count last_status last_checked].
  rewrite collect_status by done. split; [|done].
  assert (0 ≤ prior_count (default ∅ state_file) d) as Hc.
  { unfold prior_count.
    destruct (default ∅ state_file !! d) as [prev|] eqn:Hprev; [|done].
    by apply (Hprior d prev). }
  destruct (check_domain dns d); simpl; lia.
Qed.
End history.

Lemma consecutive_nxdomain_witness :
  "gone.example"
  ∈ CheckDomains.reported_candidates example_env example_dns
      "DOMAIN,gone.example" (Some (state_after example_runs 2 None)).
Proof.
  refine (proj2 (proj2 (consecutive_nxdomain example_runs None
                          "gone.example" 2 _)
                   example_env example_dns "DOMAIN,gone.example" eq_refl) _).
  - intros k env dns rules_text _ Hrun. injection Hrun as <- <- <-.
    split; [vm_compute; apply list_elem_of_here|reflexivity].
  - by vm_compute.
Defined.

Lemma written_records_wellformed_witness :
  map_Forall (λ d r, 0 ≤ CheckDomains.count r
                     ∧ CheckDomains.last_status r
                       = CheckDomains.check_domain example_dns d
                     ∧ CheckDomains.last_checked r
                       = CheckDomains.utcnow example_env d)
    (CheckDomains.written_state example_env example_dns
       "DOMAIN,gone.example" (Some example_state)).
Proof.
  apply written_records_wellformed.
  apply (bool_decide_unpack _). by vm_compute.
Defined.

(** ** The merge, continued *)

Lemma size_list_to_set_le (l : list string) :
  (size (list_to_set l : gset string) ≤ length l)%nat.
Proof.
  induction l as [|x l IH]; [done|].
  cbn [list_to_set length]. rewrite size_union_alt, size_singleton.
  assert (size (list_to_set l ∖ {[x]} : gset string)
          ≤ size (list_to_set l : gset string))%nat.
  { apply subseteq_size. intros y Hy.
    by apply elem_of_difference in Hy as [? _]. }
  lia.
Qed.

Section merge_more.
Import SyncRules.
Context `{Py.Runtime}.

Lemma length_set_iter (s : gset string) : length (Py.set_iter s) = size s.
Proof. by rewrite Py.set_iter_perm. Qed.

Lemma NoDup_set_iter (s : gset string) : NoDup (Py.set_iter s).
Proof. rewrite Py.set_iter_perm. apply NoDup_elements. Qed.

Lemma NoDup_sorted_rules_set (s : gset string) :
  NoDup (sorted_rules (Py.set_iter s)).
Proof. unfold sorted_rules. rewrite sorted_perm. apply NoDup_set_iter. Qed.

Lemma elem_of_sorted_rules_set (s : gset string) (r : string) :
  r ∈ sorted_rules (Py.set_iter s) ↔ r ∈ s.
Proof. unfold sorted_rules. by rewrite elem_of_sorted, elem_of_set_iter. Qed.

Lemma parse_rules_rule_line (text line : string) :
  line ∈ parse_rules text → is_rule_line line = true.
Proof.
  unfold parse_rules. intros Hline.
  by apply list_elem_of_In, filter_In in Hline as [_ ?].
Qed.

Lemma load_core_elem_of_2 (fs : FS) (args : Args) (names : list string)
    (acc core : gset string) (line : string) :
  load_core fs args names acc = inr core →
  line ∈ acc
  ∨ (∃ name text, name ∈ names ∧ fs !! core_path args name = Some text
                  ∧ line ∈ parse_rules text) →
  line ∈ core.
Proof.
  revert acc. induction names as [|x names IH]; intros acc Hload Hline.
  - cbn [load_core] in Hload. injection Hload as <-.
    destruct Hline as [?|(? & ? & Hnil & _)]; [done|].
    by apply not_elem_of_nil in Hnil.
  - cbn [load_core] in Hload.
    destruct (fs !! core_path args x) as [text|] eqn:Hx; [|done].
    apply (IH _ Hload).
    destruct Hline as [?|(name & text' & Hname & Hfile & Hparsed)].
    + left. by apply elem_of_union_l.
    + apply elem_of_cons in Hname as [->|Hname].
      * left. apply elem_of_union_r, elem_of_list_to_set. congruence.
      * right. by exists name, text'.
Qed.

Lemma load_core_present (fs : FS) (args : Args) (names : list string)
    (acc : gset string) :
  (∀ name, name ∈ names → is_Some (fs !! core_path args name)) →
  ∃ core, load_core fs args names acc = inr core.
Proof.
  revert acc. induction names as [|x names IH]; intros acc Hall.
  - by eexists.
  - cbn [load_core]. destruct (Hall x) as [text ->]; [by left|].
    apply IH. intros name Hname. apply Hall. by right.
Qed.

(** X15. The rules written in the canonical artifact are the rule lines
    of the core lists, the candidates of the extra file that some upstream
    list has, and the rule lines of the custom list, and nothing else;
    each is written once, and none is empty or a comment. *)
Theorem merged_artifact_rules (fs : FS) (args : Args) (env : Env)
    (core : gset string) :
  load_core fs args CORE_SOURCES ∅ = inr core →
  let body := sorted_rules (Py.set_iter (merged_rules fs args env core)) in
  NoDup body
  ∧ Forall (λ r, is_rule_line r = true) body
  ∧ (∀ r, r ∈ body
          ↔ (∃ name text, name ∈ CORE_SOURCES
                          ∧ fs !! core_path args name = Some text
                          ∧ r ∈ parse_rules text)
            ∨ (r ∈ extra_candidates fs env ∧ r ∈ upstream_lines fs args)
            ∨ (∃ text, fs !! custom_path env = Some text
                       ∧ r ∈ parse_rules text)).
Proof.
  intros Hload body.
  assert (∀ r, r ∈ core
               ↔ ∃ name text, name ∈ CORE_SOURCES
                              ∧ fs !! core_path args name = Some text
                              ∧ r ∈ parse_rules text) as Hcore.
  { intros r. split.
    - intros Hr. destruct (load_core_elem_of _ _ _ _ _ _ Hload Hr)
        as [Hempty|?]; [|done]. by apply not_elem_of_empty in Hempty.
    - intros Hr. apply (load_core_elem_of_2 _ _ _ _ _ _ Hload). by right. }
  assert (∀ r, r ∈ upstream_extra_rules fs args env
               ↔ r ∈ extra_candidates fs env ∧ r ∈ upstream_lines fs args)
    as Hextra.
  { intros r. unfold upstream_extra_rules.
    rewrite elem_of_list_to_set, list_elem_of_In, filter_In,
      bool_decide_eq_true, <-list_elem_of_In. done. }
  assert (∀ r, r ∈ custom_rules fs env
               ↔ ∃ text, fs !! custom_path env = Some text
                         ∧ r ∈ parse_rules text) as Hcustom.
  { intros r. unfold custom_rules.
    destruct (fs !! custom_path env) as [text|].
    - rewrite elem_of_list_to_set. split; [by exists text|].
      by intros (? & [= <-] & ?).
    - split; [by intros ?%not_elem_of_empty|]. by intros (? & ? & _). }
  assert (∀ r, r ∈ body
          ↔ (∃ name text, name ∈ CORE_SOURCES
                          ∧ fs !! core_path args name = Some text
                          ∧ r ∈ parse_rules text)
            ∨ (r ∈ extra_candidates fs env ∧ r ∈ upstream_lines fs args)
            ∨ (∃ text, fs !! custom_path env = Some text
                       ∧ r ∈ parse_rules text)) as Hbody.
  { intros r. unfold body, merged_rules.
    rewrite elem_of_sorted_rules_set, !elem_of_union, Hcore, Hextra, Hcustom.
    tauto. }
  split; [apply NoDup_sorted_rules_set|]. split; [|done].
  apply Forall_forall. intros r Hr. apply Hbody in Hr
    as [(? & text & _ & _ & Hr)|[[Hr _]|(text & _ & Hr)]].
  - by eapply parse_rules_rule_line.
  - unfold extra_candidates in Hr.
    destruct (fs !! upstream_extra_path env) as [text|].
    + by eapply parse_rules_rule_line.
    + by apply not_elem_of_nil in Hr.
  - by eapply parse_rules_rule_line.
Qed.

(** X16. The resolve artifact holds the text of every rule of the
    canonical list with the occurrences of [,no-resolve] deleted, each
    such text once: it never has more rules than the canonical list. *)
Theorem resolve_view_not_larger (rules_sorted : list string) :
  NoDup (resolve_rules rules_sorted)
  ∧ (length (resolve_rules rules_sorted) ≤ length rules_sorted)%nat
  ∧ ∀ r', r' ∈ resolve_rules rules_sorted
          ↔ ∃ r, r ∈ rules_sorted ∧ r' = Py.replace ",no-resolve" "" r.
Proof.
  unfold resolve_rules. split; [apply NoDup_sorted_rules_set|]. split.
  - unfold sorted_rules. rewrite sorted_perm, length_set_iter.
    etrans; [apply size_list_to_set_le|]. by rewrite length_fmap.
  - intros r'.
    rewrite elem_of_sorted_rules_set, elem_of_list_to_set, list_elem_of_fmap.
    split; intros (r & ? & ?); by exists r.
Qed.
End merge_more.

Lemma merged_artifact_rules_witness :
  NoDup (SyncRules.sorted_rules
           (Py.set_iter (SyncRules.merged_rules example_fs example_args
                           example_sync_env example_core))).
Proof.
  exact (proj1 (merged_artifact_rules example_fs example_args
                  example_sync_env example_core example_load_core)).
Defined.

(** ** What a merge writes *)

Lemma rules_dir_text (env : SyncRules.Env) :
  SyncRules.rules_dir env
  = SyncRules.repo_root env +:+ "/rule/Surge/OverseasAI".
Proof.
  unfold SyncRules.rules_dir, path_join. by rewrite !app_assoc_str.
Qed.

Lemma custom_path_text (env : SyncRules.Env) :
  SyncRules.custom_path env
  = SyncRules.repo_root env +:+ "/rule/Surge/OverseasAI/OverseasAI_Custom.list".
Proof.
  unfold SyncRules.custom_path. rewrite rules_dir_text.
  unfold path_join. by rewrite !app_assoc_str.
Qed.

Lemma main_path_text (env : SyncRules.Env) :
  SyncRules.main_path env
  = SyncRules.repo_root env +:+ "/rule/Surge/OverseasAI/OverseasAI.list".
Proof.
  unfold SyncRules.main_path. rewrite rules_dir_text.
  unfold path_join. by rewrite !app_assoc_str.
Qed.

Lemma resolve_path_text (env : SyncRules.Env) :
  SyncRules.resolve_path env
  = SyncRules.repo_root env
    +:+ "/rule/Surge/OverseasAI/OverseasAI_Resolve.list".
Proof.
  unfold SyncRules.resolve_path. rewrite rules_dir_text.
  unfold path_join. by rewrite !app_assoc_str.
Qed.

Lemma upstream_missing_path_text (env : SyncRules.Env) :
  SyncRules.upstream_missing_path env
  = SyncRules.repo_root env +:+ "/reports/upstream_missing.txt".
Proof.
  unfold SyncRules.upstream_missing_path, path_join.
  by rewrite !app_assoc_str.
Qed.

Section merge_effects.
Import SyncRules.
Context `{Py.Runtime}.

(** X17. A merge ends in one of three ways. It stops with SystemExit
    exactly when the list of some core source is not there. Otherwise it
    creates the directory of the artifacts and writes, in this order, the
    canonical artifact, the resolve artifact and, when it was asked to
    write it anew, the custom list, and then comes to the missing report:
    when the directory [reports] is there it writes the report and is
    done, and when it is not, the write raises FileNotFoundError, the
    other files having been written. The custom list is not written
    unless that was asked. *)
Theorem merge_end_states (reports_dir_exists : bool) (fs : FS) (args : Args)
    (env : Env) :
  let run := main_on_disk reports_dir_exists fs args env in
  let written :=
    [rules_dir env; main_path env; resolve_path env]
    ++ (if refresh_custom args then [custom_path env] else []) in
  ((∃ msg, snd run = MergeExit msg)
   ↔ ∃ name, name ∈ CORE_SOURCES ∧ fs !! core_path args name = None)
  ∧ (snd run = MergeDone
     ↔ reports_dir_exists = true
       ∧ ∀ name, name ∈ CORE_SOURCES → is_Some (fs !! core_path args name))
  ∧ (snd run = MergeDone →
     effect_path <$> fst run = written ++ [upstream_missing_path env])
  ∧ ((∀ name, name ∈ CORE_SOURCES → is_Some (fs !! core_path args name)) →
     reports_dir_exists = false →
     snd run = MergeFileNotFound (upstream_missing_path env)
     ∧ effect_path <$> fst run = written)
  ∧ (refresh_custom args = false →
     ∀ text, ¬ In (WriteText (custom_path env) text) (fst run)).
Proof.
  intros run written.
  assert ((∀ name, name ∈ CORE_SOURCES → is_Some (fs !! core_path args name))
          ∨ ∃ name, name ∈ CORE_SOURCES ∧ fs !! core_path args name = None)
    as Hcases.
  { destruct (decide (Forall (λ name, is_Some (fs !! core_path args name))
                        CORE_SOURCES)) as [Hall|Hsome].
    - left. by apply Forall_forall.
    - right. apply not_Forall_Exists, Exists_exists in Hsome; [|apply _].
      destruct Hsome as (name & Hname & Hnone). exists name. split; [done|].
      by apply eq_None_not_Some. }
  assert (∀ name, name ∈ CORE_SOURCES → fs !! core_path args name = None →
            ∃ msg, main fs args env = ([Mkdir (rules_dir env)], SystemExit msg))
    as Hexit.
  { intros name Hname Hfile.
    destruct (load_core_missing fs args CORE_SOURCES ∅ name Hname Hfile)
      as (missing & _ & _ & Hload).
    unfold main. rewrite Hload. by eexists. }
  assert ((∀ name, name ∈ CORE_SOURCES → is_Some (fs !! core_path args name)) →
          ∃ core, main fs args env
                  = (Mkdir (rules_dir env) :: write_artifacts fs args env core,
                     Finished)) as Hfinished.
  { intros Hall.
    destruct (load_core_present fs args CORE_SOURCES ∅ Hall) as [core Hload].
    exists core. unfold main. by rewrite Hload. }
  assert (∀ core,
            effect_path <$> (Mkdir (rules_dir env)
                             :: write_artifacts fs args env core)
            = written ++ [upstream_missing_path env]) as Hpaths.
  { intros core. unfold write_artifacts, written.
    by destruct (refresh_custom args). }
  assert (∀ core,
            effect_path <$> removelast (Mkdir (rules_dir env)
                                        :: write_artifacts fs args env core)
            = written) as Hpaths_cut.
  { intros core. unfold write_artifacts, written.
    by destruct (refresh_custom args). }
  unfold run, main_on_disk.
  split; [|split; [|split; [|split]]].
  - split.
    + intros [msg Hend].
      destruct Hcases as [Hall|Hsome]; [|done].
      destruct (Hfinished Hall) as [core Hmain]. rewrite Hmain in Hend.
      by destruct reports_dir_exists.
    + intros (name & Hname & Hfile).
      destruct (Hexit name Hname Hfile) as [msg Hmain]. rewrite Hmain.
      by eexists.
  - split.
    + intros Hend. destruct Hcases as [Hall|(name & Hname & Hfile)].
      * split; [|done]. destruct (Hfinished Hall) as [core Hmain].
        rewrite Hmain in Hend. by destruct reports_dir_exists.
      * destruct (Hexit name Hname Hfile) as [msg Hmain].
        by rewrite Hmain in Hend.
    + intros [-> Hall]. destruct (Hfinished Hall) as [core Hmain].
      by rewrite Hmain.
  - intros Hend. destruct Hcases as [Hall|(name & Hname & Hfile)].
    + destruct (Hfinished Hall) as [core Hmain]. rewrite Hmain in Hend |- *.
      destruct reports_dir_exists; [|done]. apply Hpaths.
    + destruct (Hexit name Hname Hfile) as [msg Hmain].
      by rewrite Hmain in Hend.
  - intros Hall ->. destruct (Hfinished Hall) as [core Hmain]. rewrite Hmain.
    split; [done|]. apply Hpaths_cut.
  - intros Hno text.
    assert (∀ l, In (WriteText (custom_path env) text) l →
                 In (custom_path env) (effect_path <$> l)) as Hpath.
    { intros l Hin. apply list_elem_of_In.
      apply list_elem_of_In, (list_elem_of_fmap_2 effect_path) in Hin.
      exact Hin. }
    assert (¬ In (custom_path env) (written ++ [upstream_missing_path env]))
      as Hnot.
    { unfold written. rewrite Hno.
      rewrite custom_path_text, main_path_text, resolve_path_text,
        upstream_missing_path_text, rules_dir_text.
      intros [Heq|[Heq|[Heq|[Heq|[]]]]];
        apply (inj (String.app (repo_root env))) in Heq;
        discriminate Heq. }
    destruct Hcases as [Hall|(name & Hname & Hfile)].
    + destruct (Hfinished Hall) as [core Hmain]. rewrite Hmain.
      destruct reports_dir_exists; cbn [fst]; intros Hin%Hpath.
      * by rewrite Hpaths in Hin.
      * rewrite Hpaths_cut in Hin. apply Hnot, in_or_app. by left.
    + destruct (Hexit name Hname Hfile) as [msg Hmain]. rewrite Hmain.
      cbn [fst]. intros [Heq|[]]. discriminate Heq.
Qed.

(** X18. When the custom list is written anew, it gets the rules of the
    merged set that are in no core list and are not admitted extras: they
    are rules of the custom list read at the start, each once, and
    together with the core rules and the admitted extras they make up the
    merged set again, so that the next merge of the same sources gives
    the same set. *)
Theorem refreshed_custom_list (fs : FS) (args : Args) (env : Env)
    (core : gset string) :
  load_core fs args CORE_SOURCES ∅ = inr core →
  refresh_custom args = true →
  let kept :=
    sorted_rules
      (Py.set_iter
         (filter (λ r, (r ∉ core) ∧ (r ∉ upstream_extra_rules fs args env))
                 (merged_rules fs args env core))) in
  In (WriteText (custom_path env) (Py.join nl kept +:+ nl))
     (fst (main fs args env))
  ∧ NoDup kept
  ∧ (∀ r, r ∈ kept
          ↔ r ∈ custom_rules fs env
            ∧ (r ∉ core) ∧ (r ∉ upstream_extra_rules fs args env))
  ∧ core ∪ upstream_extra_rules fs args env ∪ list_to_set kept
    = merged_rules fs args env core.
Proof.
  intros Hload Hrefresh kept.
  assert (∀ r, r ∈ kept
          ↔ r ∈ custom_rules fs env
            ∧ (r ∉ core) ∧ (r ∉ upstream_extra_rules fs args env)) as Hkept.
  { intros r. unfold kept, merged_rules.
    rewrite elem_of_sorted_rules_set, elem_of_filter, !elem_of_union. tauto. }
  split; [|split; [apply NoDup_sorted_rules_set|split; [done|]]].
  - unfold main. rewrite Hload. cbn [fst]. unfold write_artifacts.
    rewrite Hrefresh. right. right. right. left. reflexivity.
  - apply set_eq. intros r.
    rewrite !elem_of_union, elem_of_list_to_set, Hkept.
    unfold merged_rules. rewrite !elem_of_union.
    destruct (decide (r ∈ core)), (decide (r ∈ upstream_extra_rules fs args env));
      tauto.
Qed.
End merge_effects.

Lemma merge_end_states_witness :
  snd (main_on_disk false example_fs example_args example_sync_env)
  = MergeFileNotFound (SyncRules.upstream_missing_path example_sync_env)
  ∧ effect_path
      <$> fst (main_on_disk false example_fs example_args example_sync_env)
    = [ SyncRules.rules_dir example_sync_env;
        SyncRules.main_path example_sync_env;
        SyncRules.resolve_path example_sync_env ] ++ [].
Proof.
  refine (proj1 (proj2 (proj2 (proj2 (merge_end_states false example_fs
                                        example_args example_sync_env))))
            _ _).
  - intros name Hname. apply (bool_decide_unpack _).
    repeat (apply elem_of_cons in Hname as [->|Hname]; [by vm_compute|]).
    by apply elem_of_nil in Hname.
  - reflexivity.
Defined.

Lemma example_refresh_load_core :
  SyncRules.load_core example_fs example_refresh_args SyncRules.CORE_SOURCES ∅
  = inr example_core.
Proof.
  vm_cast_no_check (eq_refl (inr example_core : string + gset string)).
Qed.

Lemma refreshed_custom_list_witness :
  NoDup (SyncRules.sorted_rules
           (Py.set_iter
              (filter (λ r, (r ∉ example_core)
                            ∧ (r ∉ SyncRules.upstream_extra_rules example_fs
                                     example_refresh_args example_sync_env))
                      (SyncRules.merged_rules example_fs example_refresh_args
                         example_sync_env example_core)))).
Proof.
  exact (proj1 (proj2 (refreshed_custom_list example_fs example_refresh_args
                         example_sync_env example_core
                         example_refresh_load_core eq_refl))).
Defined.

(** ** The remapped dialect, continued *)

Lemma qx_line_split (rule : string) :
  Py.split "," (BuildClients.qx_line rule)
  = [ BuildClients.qx_type_of (hd "" (Py.split "," rule));
      BuildClients.value_of (Py.split "," rule); GROUP ].
Proof.
  unfold BuildClients.qx_line, BuildClients.qx_transform. simpl snd.
  apply qx_line_fields.
  - apply qx_type_of_free, split_hd_free.
  - apply value_of_free.
Qed.

(** X19. The domain check_domains.py checks for a rule is the value
    build_clients.py emits for it: a rule that gives a domain to check is
    emitted as HOST or HOST-SUFFIX, that domain, and the group label. *)
Theorem checked_domain_is_emitted_value (rule d : string) :
  CheckDomains.domain_of rule = Some d →
  ∃ T, (T = "HOST" ∨ T = "HOST-SUFFIX")
       ∧ Py.split "," (BuildClients.qx_line rule) = [T; d; GROUP]
       ∧ comma_free d.
Proof.
  intros (t & fields & Hsplit & Ht)%domain_of_spec.
  pose proof (value_of_free rule) as Hfree.
  rewrite qx_line_split, Hsplit. rewrite Hsplit in Hfree. simpl in Hfree |- *.
  destruct Ht as [-> | ->].
  - exists "HOST". split; [by left|done].
  - exists "HOST-SUFFIX". split; [by right|done].
Qed.

Lemma checked_domain_is_emitted_value_witness :
  ∃ T, (T = "HOST" ∨ T = "HOST-SUFFIX")
       ∧ Py.split "," (BuildClients.qx_line "DOMAIN-SUFFIX,x.com,no-resolve")
         = [T; "x.com"; GROUP]
       ∧ comma_free "x.com".
Proof.
  apply (checked_domain_is_emitted_value "DOMAIN-SUFFIX,x.com,no-resolve").
  reflexivity.
Defined.

Lemma qx_transform_type (rule : string) :
  fst (BuildClients.qx_transform rule)
  = BuildClients.qx_type_of (SyncRules.rule_type_of rule).
Proof.
  unfold BuildClients.qx_transform, SyncRules.rule_type_of. cbn [fst].
  by rewrite <-partition_head_split, partition_head_split_max.
Qed.

Lemma qx_type_of_not_domain (t : string) :
  BuildClients.qx_type_of t ∉ DOMAIN_TYPES.
Proof.
  unfold BuildClients.qx_type_of, DOMAIN_TYPES.
  repeat match goal with
  | |- context [String.eqb t ?k] =>
      destruct (String.eqb_spec t k) as [->|?];
      [apply (bool_decide_unpack _); by vm_compute|]
  end.
  intros Hin.
  repeat (apply elem_of_cons in Hin as [->|Hin]; [done|]).
  by apply not_elem_of_nil in Hin.
Qed.

(** X20. The remap never gives one of the five DOMAIN types, and a type it
    has given is left as it is when remapped again. The count the
    remapped header has for a type is the number of rules whose remapped
    type it is: no rule is counted under a DOMAIN type, and a rule that
    has a HOST type already is counted with the rules remapped to it. *)
Theorem remapped_types_and_counts (rules : list string) (k t : string) :
  let qx_counts :=
    Py.counter_of ((fst ∘ BuildClients.qx_transform) <$> rules) in
  (BuildClients.qx_type_of t ∉ DOMAIN_TYPES)
  ∧ BuildClients.qx_type_of (BuildClients.qx_type_of t)
    = BuildClients.qx_type_of t
  ∧ Py.counter_item qx_counts k
    = Z.of_nat (length (List.filter
                  (λ rule, String.eqb
                             (BuildClients.qx_type_of
                                (SyncRules.rule_type_of rule)) k)
                  rules))
  ∧ (k ∈ DOMAIN_TYPES → Py.counter_item qx_counts k = 0).
Proof.
  intros qx_counts.
  assert (Py.counter_item qx_counts k
    = Z.of_nat (length (List.filter
                  (λ rule, String.eqb
                             (BuildClients.qx_type_of
                                (SyncRules.rule_type_of rule)) k)
                  rules))) as Hcount.
  { unfold qx_counts. rewrite counter_item_counter_of. f_equal.
    rewrite (length_filter_fmap (fst ∘ BuildClients.qx_transform)
               (λ j, String.eqb j k)).
    f_equal. apply List.filter_ext. intros r. unfold compose.
    by rewrite qx_transform_type. }
  split; [apply qx_type_of_not_domain|]. split; [|split; [done|]].
  - pose proof (qx_type_of_not_domain t) as Hnot.
    unfold BuildClients.qx_type_of at 1.
    repeat match goal with
    | |- context [String.eqb (BuildClients.qx_type_of t) ?k] =>
        destruct (String.eqb_spec (BuildClients.qx_type_of t) k) as [Heq|?];
        [exfalso; apply Hnot; rewrite Heq;
         apply (bool_decide_unpack _); by vm_compute|]
    end.
    reflexivity.
  - intros Hk. rewrite Hcount.
    rewrite (filter_nil_Forall _ rules); [done|].
    apply Forall_forall. intros r _. apply String.eqb_neq. intros Heq.
    apply (qx_type_of_not_domain (SyncRules.rule_type_of r)). by rewrite Heq.
Qed.

Lemma remapped_types_and_counts_witness :
  Py.counter_item
    (Py.counter_of ((fst ∘ BuildClients.qx_transform)
                      <$> ["DOMAIN,a.example"; "HOST,b.example"]))
    "DOMAIN" = 0.
Proof.
  refine (proj2 (proj2 (proj2 (remapped_types_and_counts
                                 ["DOMAIN,a.example"; "HOST,b.example"]
                                 "DOMAIN" "")))
            _).
  apply list_elem_of_here.
Defined.

(** ** The count lines and the total *)

Lemma sum_pointwise {A : Type} (f g : A → Z) (l : list A) :
  foldr Z.add 0 ((λ x, f x + g x) <$> l)
  = foldr Z.add 0 (f <$> l) + foldr Z.add 0 (g <$> l).
Proof.
  induction l as [|x l IH]; [done|].
  rewrite !fmap_cons. cbn [foldr]. lia.
Qed.

Lemma sum_indicator (keys : list string) (j : string) :
  NoDup keys →
  foldr Z.add 0 ((λ k, if String.eqb j k then 1 else 0) <$> keys)
  = if bool_decide (j ∈ keys) then 1 else 0.
Proof.
  induction 1 as [|k keys Hk _ IH]; [done|].
  rewrite fmap_cons. cbn [foldr]. rewrite IH.
  destruct (String.eqb_spec j k) as [->|Hne].
  - rewrite (bool_decide_eq_false_2 (k ∈ keys)) by done.
    rewrite bool_decide_eq_true_2; [done|]. by left.
  - destruct (bool_decide_reflect (j ∈ keys)) as [Hin|Hnin].
    + rewrite bool_decide_eq_true_2; [done|]. by right.
    + rewrite bool_decide_eq_false_2; [done|].
      rewrite elem_of_cons. tauto.
Qed.

Lemma items_sum_fold (keys l : list string) (c : gmap string Z) :
  NoDup keys →
  foldr Z.add 0 (Py.counter_item (fold_left Py.counter_incr l c) <$> keys)
  = foldr Z.add 0 (Py.counter_item c <$> keys)
    + Z.of_nat (length (List.filter (λ j, bool_decide (j ∈ keys)) l)).
Proof.
  intros Hkeys. revert c. induction l as [|j l IH]; intros c; simpl; [lia|].
  rewrite IH.
  rewrite (list_fmap_ext (Py.counter_item (Py.counter_incr c j))
             (λ k, Py.counter_item c k + (if String.eqb j k then 1 else 0))
             keys) by (intros; apply counter_item_incr).
  rewrite sum_pointwise, sum_indicator by done.
  destruct (bool_decide (j ∈ keys)); simpl; lia.
Qed.

(** X21. In the header of a list of rules, the counts on the count lines
    add up to the number of rules whose type is one of the nine of the
    enumeration, and the total line shows the number of all the rules: it
    exceeds the sum of the count lines by the number of rules of any other
    type. *)
Theorem count_lines_sum (name updated : string) (rules : list string) :
  let counts := Py.counter_of (SyncRules.rule_type_of <$> rules) in
  SyncRules.build_header name updated counts
  = header_lines (sync_preamble_text name updated) (emitted_counts counts)
      (shown_sum (emitted_counts counts) + other_rules rules)
  ∧ shown_sum (emitted_counts counts) = enumerated_rules rules
  ∧ enumerated_rules rules + other_rules rules = Z.of_nat (length rules).
Proof.
  intros counts.
  assert (shown_sum (emitted_counts counts) = enumerated_rules rules) as Hsum.
  { rewrite shown_sum_emitted. unfold counts, Py.counter_of, enumerated_rules.
    rewrite items_sum_fold
      by (apply (bool_decide_unpack _); by vm_compute).
    rewrite (length_filter_fmap SyncRules.rule_type_of
               (λ j, bool_decide (j ∈ TYPE_ENUMERATION))).
    assert (foldr Z.add 0 (Py.counter_item ∅ <$> TYPE_ENUMERATION) = 0)
      as -> by reflexivity.
    rewrite Z.add_0_l. do 2 f_equal.
    apply List.filter_ext. intros rule. simpl. by rewrite rule_type_of_split. }
  assert (∀ l, enumerated_rules l + other_rules l = Z.of_nat (length l))
    as Hall.
  { unfold enumerated_rules, other_rules.
    induction l as [|x l IH]; [done|]. cbn [List.filter].
    destruct (bool_decide (hd "" (Py.split "," x) ∈ TYPE_ENUMERATION));
      cbn [negb length]; lia. }
  split; [|done].
  rewrite sync_header_lines, Hsum, Hall. unfold counts.
  by rewrite counter_sum_counter_of, length_fmap.
Qed.

Lemma canonical_sort_deterministic_witness :
  SyncRules.sorted_rules ["DOMAIN-SUFFIX,x.com"; "DOMAIN,a.example"]
  = SyncRules.sorted_rules ["DOMAIN,a.example"; "DOMAIN-SUFFIX,x.com"].
Proof.
  apply canonical_sort_deterministic.
  - apply perm_swap.
  - intros x Hx. apply (bool_decide_unpack _).
    repeat (apply elem_of_cons in Hx as [->|Hx]; [by vm_compute|]).
    by apply not_elem_of_nil in Hx.
Defined.

(** ** The resolve view, continued *)

Lemma join_split (sep : ascii) (s : string) :
  Py.join (String sep "") (Py.split sep s) = s.
Proof.
  induction s as [|c s IH]; [done|]. simpl.
  pose proof (split_not_nil sep s) as Hnil.
  destruct (Ascii.eqb_spec c sep) as [->|Hne].
  - destruct (Py.split sep s) as [|f fs]; [done|].
    change (Py.join (String sep "") ("" :: f :: fs))
      with ("" +:+ String sep "" +:+ Py.join (String sep "") (f :: fs)).
    by rewrite IH.
  - destruct (Py.split sep s) as [|f fs]; [done|]. simpl.
    destruct fs as [|g fs].
    + simpl in IH |- *. by rewrite IH.
    + change (Py.join (String sep "") (String c f :: g :: fs))
        with (String c f +:+ String sep ""
              +:+ Py.join (String sep "") (g :: fs)).
      rewrite app_cons. f_equal. exact IH.
Qed.

Lemma replace_comma_free (rule : string) :
  comma_free rule → Py.replace ",no-resolve" "" rule = rule.
Proof.
  intros Hfree. unfold Py.replace.
  rewrite <-(app_nil_r_str rule) at 1.
  rewrite replace_field by done. apply app_nil_r_str.
Qed.

Lemma replace_safe (rule : string) :
  modifier_safe rule →
  Py.replace ",no-resolve" "" rule = strip_modifier rule.
Proof.
  unfold modifier_safe. intros Hsafe.
  pose proof (join_split "," rule) as Hjoin.
  pose proof (split_fields_free "," rule) as Hfree.
  destruct (Py.split "," rule) as [|t [|v mods]] eqn:Hsplit.
  - by destruct (split_not_nil "," rule).
  - unfold strip_modifier. rewrite Hsplit.
    apply replace_comma_free. simpl in Hjoin. rewrite <-Hjoin.
    by apply Forall_cons in Hfree as [Ht _].
  - destruct Hsafe as [Hv Hmods]. rewrite <-Hjoin. clear Hjoin Hsplit.
    apply Forall_cons in Hfree as [Ht Hfree].
    apply Forall_cons in Hfree as [Hvfree Hmodsfree].
    by apply replace_strips_modifier.
Qed.

Section resolve_refines.
Context `{Py.Runtime}.

(** X23. On a list of rules in which the text [no-resolve] begins no
    value and no modifier other than the do-not-resolve modifier itself,
    the resolve artifact is the list with that modifier taken out of
    every rule, field by field, and the duplicates merged. *)
Theorem resolve_rules_refine (rules_sorted : list string) :
  Forall modifier_safe rules_sorted →
  SyncRules.resolve_rules rules_sorted = resolve_view rules_sorted.
Proof.
  intros Hsafe. unfold SyncRules.resolve_rules, resolve_view.
  do 3 f_equal. apply list_fmap_ext. intros i rule Hrule.
  apply replace_safe. rewrite Forall_forall in Hsafe.
  apply Hsafe. by eapply list_elem_of_lookup_2.
Qed.
End resolve_refines.

Lemma resolve_rules_refine_witness :
  SyncRules.resolve_rules
    ["DOMAIN-SUFFIX,x.com"; "IP-CIDR,1.2.3.4/32"; "IP-CIDR,1.2.3.4/32,no-resolve"]
  = resolve_view
      ["DOMAIN-SUFFIX,x.com"; "IP-CIDR,1.2.3.4/32"; "IP-CIDR,1.2.3.4/32,no-resolve"].
Proof.
  apply resolve_rules_refine.
  repeat constructor; vm_compute; auto.
Defined.

(** ** From the canonical artifact to the pass-through dialects *)

Lemma startswith_hash (s : string) : Py.startswith (String "#" s) "#" = true.
Proof. by destruct s. Qed.

Lemma sync_header_comments (name updated : string) (counts : gmap string Z) :
  Forall (λ line, Py.startswith line "#" = true)
         (SyncRules.build_header name updated counts).
Proof.
  unfold SyncRules.build_header. rewrite !Forall_app. split; [|split].
  - unfold SyncRules.preamble. repeat constructor; try apply startswith_hash.
  - apply Forall_fmap, Forall_forall. intros k _. apply startswith_hash.
  - repeat constructor; try apply startswith_hash.
Qed.

Lemma filter_all {A : Type} (f : A → bool) (l : list A) :
  Forall (λ x, f x = true) l → List.filter f l = l.
Proof.
  induction 1 as [|x l Hx _ IH]; [done|]. simpl. by rewrite Hx, IH.
Qed.

Lemma startswith_nonempty (line p : string) :
  p ≠ "" → Py.startswith line p = true → negb (String.eqb line "") = true.
Proof. intros Hp. destruct line, p; done. Qed.

Section passthrough.
Context `{Py.Runtime}.

Lemma parse_canonical_lines (text : string) (header rules : list string) :
  Py.strip <$> Py.splitlines text = header ++ rules →
  Forall (λ line, Py.startswith line "#" = true) header →
  Forall (λ line, SyncRules.is_rule_line line = true) rules →
  BuildClients.parse_rules text = (header, rules).
Proof.
  intros Hlines Hheader Hrules. unfold BuildClients.parse_rules.
  rewrite Hlines.
  assert (Forall (λ line, negb (String.eqb line "") = true) (header ++ rules))
    as Hnonempty.
  { apply Forall_app. split.
    - eapply Forall_impl; [exact Hheader|]. intros line Hline.
      by apply (startswith_nonempty line "#").
    - eapply Forall_impl; [exact Hrules|]. intros line Hline.
      unfold SyncRules.is_rule_line in Hline.
      by apply andb_prop in Hline as [? _]. }
  rewrite (filter_all _ _ Hnonempty), !List.filter_app.
  rewrite (filter_all _ header Hheader).
  rewrite (filter_nil_Forall _ rules).
  - rewrite (filter_nil_Forall _ header).
    + rewrite (filter_all _ rules); [by rewrite app_nil_r|].
      eapply Forall_impl; [exact Hrules|]. intros line Hline.
      unfold SyncRules.is_rule_line in Hline.
      by apply andb_prop in Hline as [_ ?].
    + eapply Forall_impl; [exact Hheader|]. intros line Hline.
      by rewrite Hline.
  - eapply Forall_impl; [exact Hrules|]. intros line Hline.
    unfold SyncRules.is_rule_line in Hline.
    apply andb_prop in Hline as [_ Hline]. by apply negb_true_iff.
Qed.

(** X24. When the text build_clients.py reads is the canonical artifact of
    sync_rules.py, and reading it line by line gives back the lines that
    were written, then the artifact it writes for each of Clash, Loon and
    Shadowrocket is that same text: header, counts, total and rules. *)
Theorem passthrough_reproduces_canonical (repo_root updated : string)
    (rules : list string) (platform : string) :
  Forall (λ rule, SyncRules.is_rule_line rule = true) rules →
  Py.strip <$> Py.splitlines (canonical_text updated rules)
  = canonical_lines updated rules →
  platform ∈ ["Clash"; "Loon"; "Shadowrocket"] →
  In (WriteText
        (repo_root // "rule" // platform // "OverseasAI" // "OverseasAI.list")
        (canonical_text updated rules))
     (BuildClients.main repo_root (canonical_text updated rules)).
Proof.
  intros Hrules Hlines Hplatform.
  unfold canonical_lines in Hlines. cbv zeta in Hlines.
  set (rules_sorted := SyncRules.sorted_rules rules) in *.
  set (counts := Py.counter_of (SyncRules.rule_type_of <$> rules_sorted)) in *.
  assert (Forall (λ rule, SyncRules.is_rule_line rule = true) rules_sorted)
    as Hsorted_rules.
  { unfold rules_sorted, SyncRules.sorted_rules.
    by rewrite sorted_perm. }
  assert (BuildClients.sorted_rules rules_sorted = rules_sorted) as Hfixed.
  { unfold BuildClients.sorted_rules. apply sorted_fixed.
    apply (sorted_rules_Sorted rules). }
  unfold BuildClients.main.
  rewrite (parse_canonical_lines _ _ _ Hlines
             (sync_header_comments _ _ _) Hsorted_rules).
  rewrite Hfixed, meta_of_sync_header.
  assert (BuildClients.build_header "OverseasAI"
            (tl (SyncRules.preamble "OverseasAI" updated))
            (Py.counter_of (BuildClients.rule_type_of <$> rules_sorted))
          = SyncRules.build_header "OverseasAI" updated counts) as -> by done.
  assert (BuildClients.artifact
            (SyncRules.build_header "OverseasAI" updated counts) rules_sorted
          = canonical_text updated rules) as -> by done.
  apply in_or_app. left.
  repeat (apply elem_of_cons in Hplatform as [->|Hplatform];
          [cbn; tauto|]).
  by apply not_elem_of_nil in Hplatform.
Qed.
End passthrough.

Lemma passthrough_reproduces_canonical_witness :
  In (WriteText "/repo/rule/Clash/OverseasAI/OverseasAI.list"
        (canonical_text "2024-05-01 00:00:00"
           ["DOMAIN-SUFFIX,x.com,no-resolve"; "PROCESS-NAME,tool";
            "DOMAIN,a.example"]))
     (BuildClients.main "/repo"
        (canonical_text "2024-05-01 00:00:00"
           ["DOMAIN-SUFFIX,x.com,no-resolve"; "PROCESS-NAME,tool";
            "DOMAIN,a.example"])).
Proof.
  apply (passthrough_reproduces_canonical "/repo" "2024-05-01 00:00:00"
           ["DOMAIN-SUFFIX,x.com,no-resolve"; "PROCESS-NAME,tool";
            "DOMAIN,a.example"] "Clash").
  - repeat constructor.
  - by vm_compute.
  - apply list_elem_of_here.
Defined.

(** ** The candidates of the extra file *)

Section extras.
Import SyncRules.
Context `{Py.Runtime}.

(** X25. Every candidate of the extra file goes one way or the other: it
    is admitted when some upstream list has it and reported as missing
    when none has. The missing report has the reported candidates as often
    as the extra file has them; it is the empty text exactly when there is
    nothing to report, and there is nothing to report when the extra file
    is absent. *)
Theorem extra_candidates_split (fs : FS) (args : Args) (env : Env) :
  (∀ line, line ∈ extra_candidates fs env →
           (line ∈ upstream_extra_rules fs args env
            ↔ line ∈ upstream_lines fs args)
           ∧ (line ∈ missing_extra fs args env
              ↔ line ∉ upstream_lines fs args))
  ∧ sorted_rules (missing_extra fs args env)
    ≡ₚ List.filter
         (λ line, negb (bool_decide (line ∈ upstream_lines fs args)))
         (extra_candidates fs env)
  ∧ (missing_report (missing_extra fs args env) = ""
     ↔ missing_extra fs args env = [])
  ∧ (fs !! upstream_extra_path env = None →
     upstream_extra_rules fs args env = ∅
     ∧ missing_report (missing_extra fs args env) = "").
Proof.
  split; [|split; [|split]].
  - intros line Hcand. split.
    + unfold upstream_extra_rules.
      rewrite elem_of_list_to_set, list_elem_of_In, filter_In,
        bool_decide_eq_true, <-list_elem_of_In. tauto.
    + unfold missing_extra.
      rewrite list_elem_of_In, filter_In, negb_true_iff,
        bool_decide_eq_false, <-list_elem_of_In. tauto.
  - unfold sorted_rules. by rewrite sorted_perm.
  - unfold missing_report. split; [|by intros ->].
    destruct (missing_extra fs args env) as [|line lines]; [done|].
    intros Htext. exfalso.
    assert (String.length (Py.join nl (sorted_rules (line :: lines)) +:+ nl)
            = String.length "") as Hlen by (by rewrite Htext).
    revert Hlen. generalize (Py.join nl (sorted_rules (line :: lines))).
    intros text. induction text as [|c text IH]; [done|].
    rewrite app_cons. done.
  - intros Habsent. unfold upstream_extra_rules, missing_extra,
      extra_candidates. by rewrite Habsent.
Qed.
End extras.

Lemma extra_candidates_split_witness :
  "DOMAIN,extra.example"
  ∈ SyncRules.missing_extra example_fs example_args example_sync_env
  ↔ "DOMAIN,extra.example" ∉ SyncRules.upstream_lines example_fs example_args.
Proof.
  exact (proj2 (proj1 (extra_candidates_split example_fs example_args
                         example_sync_env)
                  "DOMAIN,extra.example" example_candidate)).
Defined.
